(** * Field-count extraction of the litter-survey card reader (backend/app/ocr.py)

    A shallow embedding of [DataCardOCR.extract_field_counts],
    [DataCardOCR._find_item_count] and the public [process_image], with the
    properties of the matching engine stated and proved over it.

    Conventions of the embedding.
    - Python [str] values are [string]s; the text primitives work on the
      list of their characters.  Character classes are those of Python on
      the ASCII range: [str.lower] maps A-Z to a-z, [str.split()] and the
      regular-expression class [\s] share the whitespace set
      (9-13, 28-32), [\d] is 0-9.
    - Python [int] is [Z]; [int(...)] of a digit run is unbounded.
    - Python [float] values (OCR confidences, match qualities) are exact
      rationals [Q]; the constants 0.5 and 0.7 are [1#2] and [7#10].  The
      qualities are quotients of word counts, and for any field name of
      fewer than 10^15 words the comparisons of a quality or an overlap
      with the constants 0, 0.5 and 0.7 come out the same in double
      precision as on the exact quotients.  The comparison of two
      qualities with each other does not: two qualities that are equal as
      rationals may differ in the last place as doubles (2/6 + 0.5 is
      0.8333333333333333 there, 5/6 is 0.8333333333333334), so the sort of
      line 290 may order such a pair where [sort_matches] sees a tie.  The
      statement on the choice of the anchor is therefore made for every
      assignment of qualities to the fragments, and the statements on the
      embedded count and on the linker take the anchor as given.
    - A [dict] is a [gmap]; a fragment dict with keys text, confidence and
      box is the record [OcrItem].
    - A call that may raise an [Exception] returns an [outcome]; the global
      [_ocr_instance] is passed in and out of [get_ocr_instance] and
      [process_image].

    The callers of the extraction are embedded as well: the validation
    layer, the upload endpoint and the rows of the CSV export of
    backend/app/main.py, and the data-URI prefix handling of
    backend/utils/preprocessor.py.  Image operations, the OCR engine, the
    schema files and the formatting done by the csv module stay outside,
    as collaborators passed in. *)

From Stdlib Require Import ZArith QArith Ascii String List Bool Lia Sorted Permutation.
From Stdlib Require Import DecimalString DecimalPos.
From stdpp Require Import base option list strings gmap fin_maps.

Local Open Scope Z_scope.

(** ** Text primitives *)

Module Text.

Definition str := list ascii.

Definition of_string (s : string) : str := list_ascii_of_string s.

Definition code (c : ascii) : Z := Z.of_nat (nat_of_ascii c).

Definition is_upper (c : ascii) : bool := (65 <=? code c) && (code c <=? 90).

Definition is_digit (c : ascii) : bool := (48 <=? code c) && (code c <=? 57).

(** Whitespace as [str.isspace] has it below 128: TAB, LF, VT, FF, CR,
    FS, GS, RS, US and the blank. *)
Definition is_space (c : ascii) : bool :=
  ((9 <=? code c) && (code c <=? 13)) || ((28 <=? code c) && (code c <=? 32)).

Definition lower_char (c : ascii) : ascii :=
  if is_upper c then ascii_of_nat (nat_of_ascii c + 32) else c.

(** [s.lower()] *)
Definition lower (s : str) : str := map lower_char s.

(** [s.startswith(p)] *)
Fixpoint startswith (p s : str) : bool :=
  match p, s with
  | [], _ => true
  | _ :: _, [] => false
  | a :: p', b :: s' => if Ascii.eqb a b then startswith p' s' else false
  end.

(** [s.find(p)], counting positions from [i]: the lowest index at which
    [p] occurs, or -1. *)
Fixpoint find_from (p s : str) (i : Z) : Z :=
  if startswith p s then i
  else match s with
       | [] => -1
       | _ :: s' => find_from p s' (i + 1)
       end.

Definition find (p s : str) : Z := find_from p s 0.

(** [s.rfind(p)], counting positions from [i]: the highest index at which
    [p] occurs, or -1. *)
Fixpoint rfind_from (p s : str) (i : Z) : Z :=
  match s with
  | [] => if startswith p [] then i else -1
  | _ :: s' =>
      let r := rfind_from p s' (i + 1) in
      if 0 <=? r then r else if startswith p s then i else -1
  end.

Definition rfind (p s : str) : Z := rfind_from p s 0.

(** [p in s] *)
Fixpoint contains (p s : str) : bool :=
  startswith p s ||
  match s with
  | [] => false
  | _ :: s' => contains p s'
  end.

(** [s.split()]: maximal runs of non-whitespace characters; [cur] is the
    run being read, most recent character first. *)
Fixpoint split_aux (s cur : str) : list str :=
  match s with
  | [] => match cur with [] => [] | _ => [rev cur] end
  | c :: s' =>
      if is_space c
      then match cur with
           | [] => split_aux s' []
           | _ => rev cur :: split_aux s' []
           end
      else split_aux s' (c :: cur)
  end.

Definition split (s : str) : list str := split_aux s [].

(** [s[:n]] *)
Definition prefix (n : nat) (s : str) : str := firstn n s.

Definition len (s : str) : Z := Z.of_nat (length s).

(** *** The pattern [=\s*(\d+)] *)

Fixpoint skip_spaces (s : str) : str :=
  match s with
  | c :: s' => if is_space c then skip_spaces s' else s
  | [] => []
  end.

Fixpoint take_digits (s : str) : str :=
  match s with
  | c :: s' => if is_digit c then c :: take_digits s' else []
  | [] => []
  end.

(** A match of the pattern anchored at the head of [s]: the digit run of
    group 1.  Whitespace and digits are disjoint, so the greedy [\s*]
    never has to give characters back. *)
Definition match_here (s : str) : option str :=
  match s with
  | c :: s' =>
      if Ascii.eqb c "="
      then match take_digits (skip_spaces s') with
           | [] => None
           | ds => Some ds
           end
      else None
  | [] => None
  end.

(** [re.search(r'=\s*(\d+)', s)]: the leftmost match, as
    ([m.start()], [m.group(1)]). *)
Fixpoint re_search_from (s : str) (i : Z) : option (Z * str) :=
  match match_here s with
  | Some ds => Some (i, ds)
  | None =>
      match s with
      | [] => None
      | _ :: s' => re_search_from s' (i + 1)
      end
  end.

Definition re_search (s : str) : option (Z * str) := re_search_from s 0.

Definition digit_value (c : ascii) : Z := code c - 48.

(** [int(ds)] for a run of decimal digits *)
Definition int_of_digits (ds : str) : Z :=
  fold_left (fun acc c => 10 * acc + digit_value c) ds 0.

End Text.

(** ** Data model *)

(** One OCR detection: the dict built by [process_image_ocr], with
    [box = [x_min, y_min, x_max, y_max]]. *)
Record Box := { x_min : Z; y_min : Z; x_max : Z; y_max : Z }.

Record OcrItem := { text : string; confidence : Q; box : Box }.

Record FieldSchemaInput := { field_name : string }.

Record CategorySchemaInput := { category_name : string; fields : list FieldSchemaInput }.

Record FormSchemaOutput := { categories : list CategorySchemaInput; updated_at : string }.

(** [OcrFieldResult]: both attributes are optional in the source. *)
Record OcrFieldResult := { value : option Z; field_confidence : option Q }.

Record OcrCategoryResult := { name : string; result_fields : gmap string OcrFieldResult }.

Record OcrFormResult := { result_categories : gmap string OcrCategoryResult }.

(** ** Python's stable sort

    [sorted] and [list.sort] are stable, also under [reverse=True]; a
    stable sort is determined by its order, so insertion from the right
    models both.  [le x y] says that [x], which stood before [y], may stay
    before it. *)
Section StableSort.
Context {A : Type} (le : A -> A -> bool).

Fixpoint insert_stable (x : A) (l : list A) : list A :=
  match l with
  | [] => [x]
  | h :: t => if le x h then x :: h :: t else h :: insert_stable x t
  end.

Definition sort_stable (l : list A) : list A := foldr insert_stable [] l.

End StableSort.

(** ** Fuzzy label matcher *)

Import Text.

(** Lines 240-246: the key words of a field name. *)
Definition key_words_of (item_name : string) : list str :=
  let item_lower := lower (of_string item_name) in
  let item_words := split item_lower in
  let key_words := List.filter (fun w => 3 <? len w) item_words in
  match key_words with
  | [] => item_words
  | _ => key_words
  end.

(** Line 260: a key word hits the text. *)
Definition word_hits (text_lower word : str) : bool :=
  contains word text_lower
  || ((4 <=? len word) && (0 <=? find (prefix 4 word) text_lower)).

(** Lines 257-261 *)
Definition match_count (text_lower : str) (key_words : list str) : Z :=
  fold_left (fun n word => if word_hits text_lower word then n + 1 else n) key_words 0.

(** [count / len(words) if words else 0] *)
Definition ratio (count : Z) (words : list str) : Q :=
  match words with
  | [] => 0%Q
  | _ => (inject_Z count / inject_Z (Z.of_nat (length words)))%Q
  end.

(** Lines 269-271: where a key word is found. *)
Definition word_pos (text_lower word : str) : Z :=
  let pos := find word text_lower in
  if (pos <? 0) && (4 <=? len word) then find (prefix 4 word) text_lower else pos.

(** Lines 266-276: the loop that clears [in_order], from [last_pos] on. *)
Fixpoint in_order_from (text_lower : str) (key_words : list str) (last_pos : Z) : bool :=
  match key_words with
  | [] => true
  | word :: rest =>
      let pos := word_pos text_lower word in
      if 0 <=? pos
      then if pos <=? last_pos then false else in_order_from text_lower rest pos
      else in_order_from text_lower rest last_pos
  end.

Definition Qlt_bool (a b : Q) : bool := negb (Qle_bool b a).

(** Lines 263-280: the quality after the ordering boost. *)
Definition match_quality (text_lower : str) (key_words : list str) : Q :=
  let q := ratio (match_count text_lower key_words) key_words in
  if in_order_from text_lower key_words (-1) && Qlt_bool 0 q then (q + (1 # 2))%Q else q.

(** The tuple [(text, x, y, conf, match_quality)] of line 284. *)
Record ItemMatch := {
  m_text : string; m_x : Z; m_y : Z; m_conf : Q; m_quality : Q
}.

(** Lines 249-284 *)
Definition item_matches (key_words : list str) (ocr_items : list OcrItem) : list ItemMatch :=
  flat_map (fun item =>
    let q := match_quality (lower (of_string (text item))) key_words in
    if Qle_bool (1 # 2) q
    then [ {| m_text := text item; m_x := x_min (box item); m_y := y_min (box item);
              m_conf := confidence item; m_quality := q |} ]
    else []) ocr_items.

(** Line 290: [item_matches.sort(key=lambda m: m[4], reverse=True)] *)
Definition sort_matches (ms : list ItemMatch) : list ItemMatch :=
  sort_stable (fun a b => Qle_bool (m_quality b) (m_quality a)) ms.

(** ** Count extractor *)

(** Lines 300-304 *)
Definition last_keyword_pos (item_text_lower : str) (key_words : list str) : Z :=
  fold_left (fun last word =>
               let pos := rfind word item_text_lower in
               if last <? pos then pos else last) key_words (-1).

(** Lines 296-310: the count embedded in the anchor's own text. *)
Definition embedded_count (item_text : string) (key_words : list str) : option Z :=
  match re_search (of_string item_text) with
  | Some (count_pos, digits) =>
      if last_keyword_pos (lower (of_string item_text)) key_words <? count_pos
      then Some (int_of_digits digits)
      else None
  | None => None
  end.

(** ** Spatial linker *)

(** Lines 341-344: the key words of another schema item, computed as in
    lines 240-246. *)
Definition other_words_of (other_item : string) : list str :=
  let other_lower := lower (of_string other_item) in
  let other_words := List.filter (fun w => 3 <? len w) (split other_lower) in
  match other_words with
  | [] => split other_lower
  | _ => other_words
  end.

(** Lines 351-352: whole-word overlap of another item with a fragment. *)
Definition other_match_quality (check_text_lower : str) (other_words : list str) : Q :=
  ratio (Z.of_nat (length (List.filter (fun word => contains word check_text_lower) other_words)))
        other_words.

(** Lines 354-358: the test that sets [blocked] for one [check_item]. *)
Definition blocks (item_x item_y x : Z) (other_words : list str) (check_item : OcrItem) : bool :=
  Qle_bool (7 # 10) (other_match_quality (lower (of_string (text check_item))) other_words)
  && ((item_x + 30 <? x_min (box check_item)) && (x_min (box check_item) <? x - 30))
  && (Z.abs (y_min (box check_item) - item_y) <? 15).

(** Lines 336-361: the two loops leave [blocked] set exactly when some
    other item and some fragment pass the test; the [break]s only stop the
    search early. *)
Definition blocked (item_name : string) (item_x item_y x : Z)
    (ocr_items : list OcrItem) (all_items : list string) : bool :=
  existsb (fun other_item =>
             if String.eqb other_item item_name then false
             else existsb (blocks item_x item_y x (other_words_of other_item)) ocr_items)
          all_items.

(** The loop variables of lines 313-315; [best_distance = None] is
    [float('inf')]. *)
Record Best := {
  best_count : option Z; best_confidence : option Q; best_distance : option Z
}.

Definition no_best : Best :=
  {| best_count := None; best_confidence := None; best_distance := None |}.

Definition closer (distance : Z) (best : option Z) : bool :=
  match best with
  | None => true
  | Some d => distance <? d
  end.

(** Lines 334: the same-line window. *)
Definition in_window (dx dy : Z) : bool := (0 <? dx) && (dx <? 400) && (dy <? 18).

(** Lines 318-369: one turn of the loop over [ocr_items]. *)
Definition link_step (item_name : string) (item_x item_y : Z)
    (ocr_items : list OcrItem) (all_items : list string) (b : Best) (item : OcrItem) : Best :=
  match re_search (of_string (text item)) with
  | Some (_, digits) =>
      let count := int_of_digits digits in
      let dx := x_min (box item) - item_x in
      let dy := Z.abs (y_min (box item) - item_y) in
      if in_window dx dy
      then if blocked item_name item_x item_y (x_min (box item)) ocr_items all_items
           then b
           else if closer dx (best_distance b)
                then {| best_count := Some count;
                        best_confidence := Some (confidence item);
                        best_distance := Some dx |}
                else b
      else b
  | None => b
  end.

(** Lines 313-369 *)
Definition spatial_link (item_name : string) (item_x item_y : Z)
    (ocr_items : list OcrItem) (all_items : list string) : Best :=
  fold_left (link_step item_name item_x item_y ocr_items all_items) ocr_items no_best.

(** ** Field resolution *)

(** Lines 216-375.  [best_confidence] is assigned together with
    [best_count] (lines 368-369, [spatial_link_confidence_set]), so the
    last branch is that of [best_count is None]. *)
Definition _find_item_count (item_name : string) (ocr_items : list OcrItem)
    (all_items : list string) : Z * Q :=
  let key_words := key_words_of item_name in
  match sort_matches (item_matches key_words ocr_items) with
  | [] => (0, 0%Q)
  | m :: _ =>
      match embedded_count (m_text m) key_words with
      | Some count => (count, m_conf m)
      | None =>
          let b := spatial_link item_name (m_x m) (m_y m) ocr_items all_items in
          match best_count b, best_confidence b with
          | Some count, Some conf => (count, conf)
          | _, _ => (0, 0%Q)
          end
      end
  end.

(** Lines 175-181: the flat list of field names, in declaration order. *)
Definition all_field_names (schema : FormSchemaOutput) : list string :=
  flat_map (fun category => map field_name (fields category)) (categories schema).

(** Lines 176-181: the dict [field_to_category]; a later declaration of a
    name overwrites an earlier one. *)
Definition field_to_category (schema : FormSchemaOutput) : gmap string string :=
  fold_left (fun m category =>
               fold_left (fun m field => <[field_name field := category_name category]> m)
                         (fields category) m)
            (categories schema) ∅.

(** The sort key [(x['box'][1], x['box'][0])] of line 184, compared as
    Python compares tuples. *)
Definition position_lt (a b : OcrItem) : bool :=
  (y_min (box a) <? y_min (box b))
  || ((y_min (box a) =? y_min (box b)) && (x_min (box a) <? x_min (box b))).

(** Line 184 *)
Definition sorted_results (ocr_results : list OcrItem) : list OcrItem :=
  sort_stable (fun a b => negb (position_lt b a)) ocr_results.

(** Lines 187-189 *)
Definition empty_categories (schema : FormSchemaOutput) : gmap string (gmap string OcrFieldResult) :=
  fold_left (fun m category => <[category_name category := ∅]> m) (categories schema) ∅.

(** Lines 202-212: what is stored for a field. *)
Definition field_result (found : Z * Q) : OcrFieldResult :=
  let '(count, confidence) := found in
  if (0 <? count) || Qlt_bool 0 confidence
  then {| value := Some count; field_confidence := Some confidence |}
  else {| value := None; field_confidence := None |}.

(** Lines 193-212: one turn of the loop over [all_field_names].  Both
    subscripts are defined for every name of the schema
    ([field_to_category_defined], [store_inv_step]), so neither raises a
    [KeyError]. *)
Definition store_field (sorted : list OcrItem) (all_items : list string)
    (ftc : gmap string string)
    (category_results : gmap string (gmap string OcrFieldResult))
    (field_name : string) : gmap string (gmap string OcrFieldResult) :=
  let found := _find_item_count field_name sorted all_items in
  let category_name := ftc !!! field_name in
  <[category_name := <[field_name := field_result found]> (category_results !!! category_name)]>
    category_results.

(** Lines 156-214 *)
Definition extract_field_counts (ocr_results : list OcrItem) (schema : FormSchemaOutput)
    : gmap string (gmap string OcrFieldResult) :=
  let names := all_field_names schema in
  fold_left (store_field (sorted_results ocr_results) names (field_to_category schema))
            names (empty_categories schema).

(** The result the pipeline computes for one field name. *)
Definition resolve (ocr_results : list OcrItem) (schema : FormSchemaOutput)
    (field_name : string) : OcrFieldResult :=
  field_result (_find_item_count field_name (sorted_results ocr_results) (all_field_names schema)).

Definition not_located : OcrFieldResult := {| value := None; field_confidence := None |}.

(** Fragments and one-field schemas for the examples. *)
Definition mk_item (t : string) (c : Q) (x y : Z) : OcrItem :=
  {| text := t; confidence := c; box := {| x_min := x; y_min := y; x_max := x + 100; y_max := y + 20 |} |}.

Definition one_field (category field : string) : FormSchemaOutput :=
  {| categories := [ {| category_name := category; fields := [ {| field_name := field |} ] |} ];
     updated_at := "2025-10-22T00:00:00Z" |}.

(** ** The public entry point *)

(** What a call does: return a value or raise an [Exception]. *)
Inductive outcome (A : Type) : Type :=
  | Returns (a : A)
  | Raises (e : string).
Arguments Returns {A} a.
Arguments Raises {A} e.

Definition bind {A B : Type} (o : outcome A) (k : A -> outcome B) : outcome B :=
  match o with
  | Returns a => k a
  | Raises e => Raises e
  end.

Section PublicAPI.

(** PIL images are opaque to the extraction. *)
Context {Image : Type}.

(** A constructed [DataCardOCR]: its preprocessor's [decode_base64_image]
    and its [process_image_ocr] (resize, temporary file, PaddleOCR) are the
    external collaborators; either may raise. *)
Record DataCardOCR := {
  decode_base64_image : string -> outcome Image;
  process_image_ocr : Image -> outcome (list OcrItem)
}.

(** Lines 377-410 *)
Definition process_image_to_form_result (ocr : DataCardOCR) (image : Image + string)
    (schema : FormSchemaOutput) : outcome OcrFormResult :=
  bind (match image with
        | inr base64 => decode_base64_image ocr base64
        | inl img => Returns img
        end) (fun img =>
  bind (process_image_ocr ocr img) (fun ocr_results =>
  let category_results := extract_field_counts ocr_results schema in
  Returns {| result_categories :=
               map_imap (fun category_name fields =>
                           Some {| name := category_name; result_fields := fields |})
                        category_results |})).

(** Lines 418-426: [construct] is what calling [DataCardOCR()] does, the
    option is the global [_ocr_instance] before and after the call. *)
Definition get_ocr_instance (construct : outcome DataCardOCR)
    (_ocr_instance : option DataCardOCR) : outcome DataCardOCR * option DataCardOCR :=
  match _ocr_instance with
  | Some ocr => (Returns ocr, _ocr_instance)
  | None =>
      match construct with
      | Returns ocr => (Returns ocr, Some ocr)
      | Raises e => (Raises e, None)
      end
  end.

(** Lines 429-451: the instance is fetched before the [try]. *)
Definition process_image (construct : outcome DataCardOCR)
    (_ocr_instance : option DataCardOCR) (image : string) (schema : FormSchemaOutput)
    : outcome OcrFormResult * option DataCardOCR :=
  match get_ocr_instance construct _ocr_instance with
  | (Raises e, st) => (Raises e, st)
  | (Returns ocr, st) =>
      (match process_image_to_form_result ocr (inr image) schema with
       | Returns result => Returns result
       | Raises _ => Returns {| result_categories := ∅ |}
       end, st)
  end.

End PublicAPI.

(** ** The specification's wording, for comparison *)

(** The number of key words hitting the text (section 4.1, step 2). *)
Definition hits (text_lower : str) (key_words : list str) : Z :=
  Z.of_nat (length (List.filter (word_hits text_lower) key_words)).

(** The positions of the matched key words, in schema word order. *)
Definition matched_positions (text_lower : str) (key_words : list str) : list Z :=
  List.filter (fun pos => 0 <=? pos) (map (word_pos text_lower) key_words).

Fixpoint strictly_increasing (l : list Z) : bool :=
  match l with
  | a :: (b :: _) as rest => (a <? b) && strictly_increasing rest
  | _ => true
  end.

(** The same test with a bound [last] on the first position. *)
Fixpoint increasing_from (last : Z) (l : list Z) : bool :=
  match l with
  | [] => true
  | p :: rest => (last <? p) && increasing_from p rest
  end.

(** Section 4.1, steps 3 and 4, as worded: the bonus whenever the matched
    positions increase. *)
Definition spec_match_quality (text_lower : str) (key_words : list str) : Q :=
  (inject_Z (hits text_lower key_words) / inject_Z (Z.of_nat (length key_words))
   + (if strictly_increasing (matched_positions text_lower key_words) then 1 # 2 else 0))%Q.

(** Section 4.2, as worded: the rightmost occurrence of any key word or of
    its 4-character prefix. *)
Definition spec_last_label_pos (item_text_lower : str) (key_words : list str) : Z :=
  fold_left (fun last word =>
               Z.max last (Z.max (rfind word item_text_lower)
                                 (rfind (prefix 4 word) item_text_lower)))
            key_words (-1).

(** Section 7, as worded: among the matches of best quality, the first. *)
Fixpoint first_best (ms : list ItemMatch) : option ItemMatch :=
  match ms with
  | [] => None
  | m :: rest =>
      match first_best rest with
      | None => Some m
      | Some b => if Qle_bool (m_quality b) (m_quality m) then Some m else Some b
      end
  end.

(** A fragment that carries a count, and the count it carries. *)
Definition candidate_count (item : OcrItem) : option Z :=
  match re_search (of_string (text item)) with
  | Some (_, digits) => Some (int_of_digits digits)
  | None => None
  end.

(** Section 4.3: a candidate the linker may select for a label at
    ([item_x], [item_y]). *)
Definition eligible (item_name : string) (item_x item_y : Z)
    (ocr_items : list OcrItem) (all_items : list string) (c : OcrItem) : Prop :=
  is_Some (candidate_count c)
  /\ 0 < x_min (box c) - item_x < 400
  /\ Z.abs (y_min (box c) - item_y) < 18
  /\ blocked item_name item_x item_y (x_min (box c)) ocr_items all_items = false.

(** The horizontal distance of a fragment from the label. *)
Definition dx_of (item_x : Z) (c : OcrItem) : Z := x_min (box c) - item_x.

(** What the loop of the linker has established after the fragments
    [done]: nothing eligible was met and nothing is recorded, or the record
    is that of an eligible fragment which no eligible fragment met so far
    beats. *)
Definition link_inv (item_name : string) (item_x item_y : Z)
    (ocr_items : list OcrItem) (all_items : list string)
    (done : list OcrItem) (b : Best) : Prop :=
  (b = no_best
   /\ forall c, In c done -> ~ eligible item_name item_x item_y ocr_items all_items c)
  \/ (exists c n,
        In c done
        /\ eligible item_name item_x item_y ocr_items all_items c
        /\ candidate_count c = Some n
        /\ b = {| best_count := Some n; best_confidence := Some (confidence c);
                  best_distance := Some (dx_of item_x c) |}
        /\ forall c', In c' done ->
                      eligible item_name item_x item_y ocr_items all_items c' ->
                      dx_of item_x c <= dx_of item_x c').

(** Section 4.3, the blocking rule, without the division: at least 70
    percent of the key words of [other_item] occur in the fragment, which
    stands between the label and the candidate on the label's line. *)
Definition intervenes (item_x item_y x : Z) (other_item : string) (check_item : OcrItem) : Prop :=
  let other_words := other_words_of other_item in
  let found := List.filter (fun word => contains word (lower (of_string (text check_item))))
                           other_words in
  other_words <> []
  /\ 7 * Z.of_nat (length other_words) <= 10 * Z.of_nat (length found)
  /\ item_x + 30 < x_min (box check_item) < x - 30
  /\ Z.abs (y_min (box check_item) - item_y) < 15.

(** The category names of a schema, in declaration order. *)
Definition category_names (schema : FormSchemaOutput) : list string :=
  map category_name (categories schema).

(** A category of the schema declares a field of that name. *)
Definition declares (schema : FormSchemaOutput) (category field : string) : Prop :=
  exists c, In c (categories schema)
            /\ category_name c = category
            /\ In field (map field_name (fields c)).

(** What the loop over [all_field_names] has established after the names
    [done]: the categories of the schema are the keys, every stored entry
    is the resolution of a name already met, under the category the lookup
    table gives it, and every name already met has its entry. *)
Definition store_inv (ocr_results : list OcrItem) (schema : FormSchemaOutput)
    (done : list string) (res : gmap string (gmap string OcrFieldResult)) : Prop :=
  (forall cn, is_Some (res !! cn) <-> In cn (category_names schema))
  /\ (forall cn m f r, res !! cn = Some m -> m !! f = Some r ->
        In f done
        /\ field_to_category schema !! f = Some cn
        /\ r = resolve ocr_results schema f)
  /\ (forall f, In f done ->
        exists cn m, field_to_category schema !! f = Some cn
                     /\ res !! cn = Some m
                     /\ m !! f = Some (resolve ocr_results schema f)).

(** A card on which the label of "Cigarette butts" is read and no count. *)
Definition label_only : list OcrItem := [mk_item "Cigarette butts" (9 # 10) 10 10].

Definition label_only_match : ItemMatch :=
  {| m_text := "Cigarette butts"; m_x := 10; m_y := 10; m_conf := (9 # 10)%Q;
     m_quality := match_quality (lower (of_string "Cigarette butts"))
                                (key_words_of "Cigarette butts") |}.

(** A label with its count in one fragment. *)
Definition label_with_count : list OcrItem := [mk_item "Plastic bottles =8" (92 # 100) 10 10].

Definition label_with_count_match : ItemMatch :=
  {| m_text := "Plastic bottles =8"; m_x := 10; m_y := 10; m_conf := (92 # 100)%Q;
     m_quality := match_quality (lower (of_string "Plastic bottles =8"))
                                (key_words_of "Plastic bottles") |}.

(** An engine whose decoder rejects every image. *)
Definition rejecting_engine : @DataCardOCR unit :=
  {| decode_base64_image := fun _ => Raises "cannot identify image file";
     process_image_ocr := fun _ => Returns [] |}.

(** An engine that reads one fragment off every image. *)
Definition reading_engine : @DataCardOCR unit :=
  {| decode_base64_image := fun _ => Returns tt;
     process_image_ocr := fun _ => Returns label_with_count |}.

(** Lines 402-410 of ocr.py on their own: the form result built from the
    result of [extract_field_counts]. *)
Definition build_form_result (category_results : gmap string (gmap string OcrFieldResult))
    : OcrFormResult :=
  {| result_categories :=
       map_imap (fun category_name fields =>
                   Some {| name := category_name; result_fields := fields |})
                category_results |}.

(** ** The validation layer (backend/app/main.py) *)

Inductive FieldStatus : Type := CONFIDENT | NEEDS_VALIDATION | ERROR.

(** What the attribute [value] of an [OcrFieldResult], an [Optional[Any]],
    holds when it is not None: ocr.py stores ints, the callers of
    [from_ocr_field] may pass strings. *)
Inductive PyValue : Type :=
  | PyInt (n : Z)
  | PyStr (s : string).

(** [str(n)] for an int *)
Definition str_of_int (n : Z) : string := NilZero.string_of_int (Z.to_int n).

(** [str(v)] *)
Definition py_str (v : PyValue) : string :=
  match v with
  | PyInt n => str_of_int n
  | PyStr s => s
  end.

Record KTBFormField := { ktb_name : string; ktb_value : string; ktb_status : FieldStatus }.

Record KTBFormCategory := { ktb_category_name : string; ktb_fields : list KTBFormField }.

Record KTBForm := { ktb_categories : list KTBFormCategory }.

Record KTBFormResult := { result_uuid : string; result_image : string; result_form : KTBForm }.

Record FilePayload := {
  file_uuid : string; file_name : string; file_type : string; file_size : Z;
  file_base64 : string
}.

Record UploadPayload := { files : list FilePayload; upload_metadata : string }.

(** What an endpoint does: respond, raise an [HTTPException], or let
    another exception through. *)
Inductive http (A : Type) : Type :=
  | Responds (a : A)
  | HTTPException (status_code : Z) (detail : string)
  | Fails (e : string).
Arguments Responds {A} a.
Arguments HTTPException {A} status_code detail.
Arguments Fails {A} e.

Section Validation.

(** [int(s)] for a string: the number, or None for ValueError. *)
Variable int_of_str : string -> option Z.

(** [int(v)] *)
Definition py_int (v : PyValue) : option Z :=
  match v with
  | PyInt n => Some n
  | PyStr s => int_of_str s
  end.

(** [KTBFormField.from_ocr_field], lines 100-141 of main.py, on the two
    attributes of the OCR field. *)
Definition from_ocr_field (name : string) (value : option PyValue) (confidence : option Q)
    : KTBFormField :=
  let value := match value with None => PyInt 0 | Some v => v end in
  let confidence := match confidence with None => 0%Q | Some c => c end in
  match py_int value with
  | None => {| ktb_name := name; ktb_value := py_str value; ktb_status := ERROR |}
  | Some int_value =>
      let value_str := str_of_int int_value in
      if Qlt_bool confidence (95 # 100)
      then {| ktb_name := name; ktb_value := value_str; ktb_status := NEEDS_VALIDATION |}
      else {| ktb_name := name; ktb_value := value_str; ktb_status := CONFIDENT |}
  end.

(** The same on an [OcrFieldResult] as ocr.py builds it. *)
Definition from_ocr_field_result (name : string) (ocr_field : OcrFieldResult) : KTBFormField :=
  from_ocr_field name (PyInt <$> value ocr_field) (field_confidence ocr_field).

(** [KTBFormCategory.from_ocr_category], lines 150-170 *)
Definition from_ocr_category (category_schema : CategorySchemaInput)
    (ocr_category : OcrCategoryResult) : KTBFormCategory :=
  {| ktb_category_name := category_name category_schema;
     ktb_fields :=
       map (fun field_schema =>
              let ocr_field :=
                default {| value := None; field_confidence := Some 1%Q |}
                        (result_fields ocr_category !! field_name field_schema) in
              from_ocr_field_result (field_name field_schema) ocr_field)
           (fields category_schema) |}.

(** [KTBForm.from_ocr_form], lines 178-199; a category result is a
    pydantic model, so [if ocr_category] tests that the key was found. *)
Definition from_ocr_form (schema : FormSchemaOutput) (ocr_form : OcrFormResult) : KTBForm :=
  {| ktb_categories :=
       flat_map (fun category_schema =>
                   match result_categories ocr_form !! category_name category_schema with
                   | Some ocr_category => [from_ocr_category category_schema ocr_category]
                   | None => []
                   end)
                (categories schema) |}.

Definition has_issue (field : KTBFormField) : bool :=
  match ktb_status field with
  | NEEDS_VALIDATION | ERROR => true
  | CONFIDENT => false
  end.

(** [count_issues], lines 339-354 *)
Definition count_issues (result : KTBFormResult) : Z :=
  fold_left (fun count category =>
               fold_left (fun count field => if has_issue field then count + 1 else count)
                         (ktb_fields category) count)
            (ktb_categories (result_form result)) 0.

(** Line 452: [form_results.sort(key=count_issues, reverse=True)] *)
Definition sort_by_issues (form_results : list KTBFormResult) : list KTBFormResult :=
  sort_stable (fun a b => count_issues b <=? count_issues a) form_results.

Section Upload.

Context {Image : Type}.

(** The collaborators of the endpoint: [base64.b64decode] (None for the
    ValueError or TypeError it raises), [convert_image_to_base64],
    [get_schema] and the constructor of the OCR engine.  Within one request
    the constructor runs at most once, in the first call of
    [process_image] that finds no instance: if it raises the request ends,
    if it returns the instance is kept; so one outcome stands for it. *)
Variable b64decode : string -> option string.
Variable convert_image_to_base64 : string -> outcome string.
Variable get_schema : outcome FormSchemaOutput.
Variable construct : outcome (@DataCardOCR Image).

(** Lines 429-449: the loop over the files, with the global OCR instance
    passed along. *)
Fixpoint process_files (file_list : list FilePayload) (current_schema : FormSchemaOutput)
    (st : option (@DataCardOCR Image))
    : http (list KTBFormResult) * option (@DataCardOCR Image) :=
  match file_list with
  | [] => (Responds [], st)
  | file_data :: rest =>
      match b64decode (file_base64 file_data) with
      | None =>
          (HTTPException 400 ("Invalid base64 string for file " ++ file_name file_data), st)
      | Some content =>
          match convert_image_to_base64 content with
          | Raises e => (Fails e, st)
          | Returns b64_image =>
              match process_image construct st b64_image current_schema with
              | (Raises e, st') => (Fails e, st')
              | (Returns ocr_result, st') =>
                  let form := from_ocr_form current_schema ocr_result in
                  let form_result :=
                    {| result_uuid := file_uuid file_data; result_image := b64_image;
                       result_form := form |} in
                  match process_files rest current_schema st' with
                  | (Responds form_results, st'') => (Responds (form_result :: form_results), st'')
                  | (failure, st'') => (failure, st'')
                  end
              end
          end
      end
  end.

(** [upload_images], lines 404-454 *)
Definition upload_images (payload : UploadPayload) (st : option (@DataCardOCR Image))
    : http (list KTBFormResult) * option (@DataCardOCR Image) :=
  if 100 <? Z.of_nat (length (files payload))
  then (HTTPException 400 ("Too many images. Maximum 100 allowed, received "
                           ++ str_of_int (Z.of_nat (length (files payload)))), st)
  else match get_schema with
       | Raises e => (Fails e, st)
       | Returns current_schema =>
           match process_files (files payload) current_schema st with
           | (Responds form_results, st') => (Responds (sort_by_issues form_results), st')
           | (failure, st') => (failure, st')
           end
       end.

End Upload.

End Validation.

(** The fields of a validated category that have an issue, counted. *)
Definition issues_of (category : KTBFormCategory) : Z :=
  Z.of_nat (length (List.filter has_issue (ktb_fields category))).

(** The category result that line 405 of ocr.py builds for a category. *)
Definition category_result_of (category_results : gmap string (gmap string OcrFieldResult))
    (category_schema : CategorySchemaInput) : OcrCategoryResult :=
  {| name := category_name category_schema;
     result_fields := default ∅ (category_results !! category_name category_schema) |}.

(** A schema that declares the field name "Other pieces" under two
    categories. *)
Definition plastic_category : CategorySchemaInput :=
  {| category_name := "Plastic"; fields := [ {| field_name := "Other pieces" |} ] |}.

Definition paper_category : CategorySchemaInput :=
  {| category_name := "Paper"; fields := [ {| field_name := "Other pieces" |} ] |}.

Definition shared_name_schema : FormSchemaOutput :=
  {| categories := [plastic_category; paper_category];
     updated_at := "2025-10-22T00:00:00Z" |}.

(** ** CSV generation (backend/app/main.py) *)

Record CsvMetadataField := { metadata_name : string; metadata_value : string }.

Record CsvFormField := { csv_field_name : string; csv_field_value : Z }.

Record CsvFormCategory := { csv_category : string; csv_fields : list CsvFormField }.

Record CsvGenerationRequest := {
  csv_metadata : list CsvMetadataField; cleanup_data : list CsvFormCategory
}.

(** What a cell of a row holds before [csv.writer] formats it. *)
Inductive Cell : Type :=
  | CellStr (s : string)
  | CellInt (n : Z).

(** Line 487 *)
Definition metadata_columns (request : CsvGenerationRequest) : list string :=
  map metadata_name (csv_metadata request).

(** Line 488: a dict comprehension, so a later field of the same name
    overwrites an earlier one. *)
Definition metadata_values (request : CsvGenerationRequest) : gmap string string :=
  fold_left (fun m field => <[metadata_name field := metadata_value field]> m)
            (csv_metadata request) ∅.

(** Line 491 *)
Definition fieldnames (request : CsvGenerationRequest) : list string :=
  ["field_name"; "value"; "category_name"]%string ++ metadata_columns request.

(** Lines 499-504: the dict of one row; the entries of [metadata_values]
    are spread last and overwrite the three fixed ones. *)
Definition row_dict (request : CsvGenerationRequest) (category : CsvFormCategory)
    (field : CsvFormField) : gmap string Cell :=
  (CellStr <$> metadata_values request)
  ∪ (<["category_name"%string := CellStr (csv_category category)]>
       (<["value"%string := CellInt (csv_field_value field)]>
          (<["field_name"%string := CellStr (csv_field_name field)]> ∅))).

(** [DictWriter.writerow]: the cells of a row dict, in the order of the
    field names, with the empty string for a missing key. *)
Definition dict_to_list (names : list string) (row : gmap string Cell) : list Cell :=
  map (fun key => default (CellStr "") (row !! key)) names.

(** Lines 484-505 of [generate_csv]: the header and the rows handed to the
    CSV writer; the formatting of a row as text is the writer's. *)
Definition csv_rows (request : CsvGenerationRequest) : list (list Cell) :=
  map CellStr (fieldnames request)
  :: flat_map (fun category =>
                 map (fun field => dict_to_list (fieldnames request)
                                                (row_dict request category field))
                     (csv_fields category))
              (cleanup_data request).

(** ** The data-URI prefix (backend/utils/preprocessor.py) *)

(** [',' in s] *)
Definition has_comma (s : str) : bool := existsb (fun c => Ascii.eqb c ",") s.

(** [s.split(',')] *)
Fixpoint split_on_comma (s : str) : list str :=
  match s with
  | [] => [[]]
  | c :: s' =>
      if Ascii.eqb c ","
      then [] :: split_on_comma s'
      else match split_on_comma s' with
           | piece :: pieces => (c :: piece) :: pieces
           | [] => [[c]]
           end
  end.

(** Lines 48-50 of [decode_base64_image]: the string handed to
    [base64.b64decode].  A string with a comma splits into two pieces at
    least, so the subscript [1] is defined. *)
Definition strip_data_uri (base64_string : str) : str :=
  if has_comma base64_string
  then nth 1 (split_on_comma base64_string) []
  else base64_string.

(** A request of two files against collaborators that accept
    everything, and what [upload_images] responds to it. *)
Definition two_files : UploadPayload :=
  {| files := [ {| file_uuid := "card-1"; file_name := "a.jpg"; file_type := "image/jpeg";
                   file_size := 5; file_base64 := "aGVsbG8=" |};
                {| file_uuid := "card-2"; file_name := "b.jpg"; file_type := "image/jpeg";
                   file_size := 5; file_base64 := "d29ybGQ=" |} ];
     upload_metadata := "" |}.

Definition two_files_response : list KTBFormResult :=
  match upload_images (fun _ => None) (fun s => Some s) (fun s => Returns s)
                      (Returns (one_field "Plastic" "Plastic bottles"))
                      (Returns reading_engine) two_files None with
  | (Responds results, _) => results
  | _ => []
  end.

(** Two fragments that agree on what the extraction reads of a fragment:
    text, confidence and the top-left corner of the box. *)
Definition same_reading (a b : OcrItem) : Prop :=
  text a = text b /\ confidence a = confidence b
  /\ x_min (box a) = x_min (box b) /\ y_min (box a) = y_min (box b).

(** The number a decimal numeral stands for, read digit by digit from the
    left with [acc] for the digits read so far. *)
Fixpoint uint_value_from (d : Decimal.uint) (acc : Z) : Z :=
  match d with
  | Decimal.Nil => acc
  | Decimal.D0 l => uint_value_from l (10 * acc)
  | Decimal.D1 l => uint_value_from l (10 * acc + 1)
  | Decimal.D2 l => uint_value_from l (10 * acc + 2)
  | Decimal.D3 l => uint_value_from l (10 * acc + 3)
  | Decimal.D4 l => uint_value_from l (10 * acc + 4)
  | Decimal.D5 l => uint_value_from l (10 * acc + 5)
  | Decimal.D6 l => uint_value_from l (10 * acc + 6)
  | Decimal.D7 l => uint_value_from l (10 * acc + 7)
  | Decimal.D8 l => uint_value_from l (10 * acc + 8)
  | Decimal.D9 l => uint_value_from l (10 * acc + 9)
  end.

(** ** Definitions for the statements on anchor, linker and blocking *)

(** The tuple of line 284 for a fragment of quality [q]. *)
Definition match_of (item : OcrItem) (q : Q) : ItemMatch :=
  {| m_text := text item; m_x := x_min (box item); m_y := y_min (box item);
     m_conf := confidence item; m_quality := q |}.

(** Lines 249-284 with the quality of a fragment left open: the list of
    matches when line 263-280 gives the fragment [item] the quality
    [quality item].  The floats the code computes are such an assignment,
    and so are the exact quotients of [match_quality]. *)
Definition item_matches_by (quality : OcrItem -> Q) (ocr_items : list OcrItem)
    : list ItemMatch :=
  flat_map (fun item => if Qle_bool (1 # 2) (quality item)
                        then [match_of item (quality item)] else [])
           ocr_items.

(** The fragments whose box starts at ([x], [y]). *)
Definition at_position (y x : Z) (item : OcrItem) : bool :=
  (y_min (box item) =? y) && (x_min (box item) =? x).

(** Section 4.1, step 1, as worded: the words of the lower-cased name
    that are longer than 3 characters, or all its words if none is. *)
Definition spec_key_words (field : string) : list str :=
  let words := split (lower (of_string field)) in
  if existsb (fun w => 3 <? len w) words
  then List.filter (fun w => 3 <? len w) words
  else words.

(** The share of key words found in a fragment, as two counts. *)
Definition words_found (key_words : list str) (fragment : OcrItem) : list str :=
  List.filter (fun word => contains word (lower (of_string (text fragment)))) key_words.

(** Section 4.3, the blocking rule: the fragment [fragment] carries at
    least 70 percent of the key words of the field [other], its x_min lies
    strictly between the label's x_min + 30 and the candidate's x_min - 30,
    and its y_min is less than [band] pixels from the label's. *)
Definition label_between (band : Z) (label_x label_y candidate_x : Z) (other : string)
    (fragment : OcrItem) : Prop :=
  spec_key_words other <> []
  /\ 7 * Z.of_nat (length (spec_key_words other))
     <= 10 * Z.of_nat (length (words_found (spec_key_words other) fragment))
  /\ label_x + 30 < x_min (box fragment) < candidate_x - 30
  /\ Z.abs (y_min (box fragment) - label_y) < band.

(** Some fragment of another field blocks the candidate at
    [candidate_x]. *)
Definition some_label_between (band : Z) (item_name : string) (label_x label_y candidate_x : Z)
    (ocr_items : list OcrItem) (all_items : list string) : Prop :=
  exists other fragment,
    In other all_items /\ other <> item_name /\ In fragment ocr_items
    /\ label_between band label_x label_y candidate_x other fragment.

(** The text of a fragment that carries a count: anything without "=",
    then "=", white space, a run of digits that ends the text or is
    followed by something that is no digit. *)
Definition count_text (t : str) (digits : str) : Prop :=
  exists before spaces rest,
    t = before ++ "="%char :: spaces ++ digits ++ rest
    /\ Forall (fun c => c <> "="%char) before
    /\ Forall (fun c => is_space c = true) spaces
    /\ digits <> []
    /\ Forall (fun c => is_digit c = true) digits
    /\ match rest with [] => True | c :: _ => is_digit c = false end.

(** A label and its count side by side. *)
Definition linked_card : list OcrItem :=
  [mk_item "Cigarette butts" (9 # 10) 10 10; mk_item "=12" (85 # 100) 30 10].

Definition linked_card_match : ItemMatch :=
  match_of (mk_item "Cigarette butts" (9 # 10) 10 10)
           (match_quality (lower (of_string "Cigarette butts"))
                          (key_words_of "Cigarette butts")).

(** The label of "Paper straws" between the label of "Paper cups" and a
    count, [off] pixels below the line of "Paper cups". *)
Definition straws_between (off : Z) : list OcrItem :=
  [mk_item "Paper cups" (9 # 10) 10 10; mk_item "=5" (8 # 10) 210 10;
   mk_item "Paper straws" (9 # 10) 110 (10 + off)].

Definition paper_cups_match : ItemMatch :=
  match_of (mk_item "Paper cups" (9 # 10) 10 10)
           (match_quality (lower (of_string "Paper cups")) (key_words_of "Paper cups")).

Definition paper_schema : FormSchemaOutput :=
  {| categories :=
       [ {| category_name := "Paper items";
            fields := [ {| field_name := "Paper cups" |}; {| field_name := "Paper straws" |} ] |} ];
     updated_at := "2025-10-22T00:00:00Z" |}.

(** C3 as worded, for one schema: with no fragments, every field a
    category declares has the entry (None, None) in that category's
    mapping. *)
Definition all_declared_not_located (schema : FormSchemaOutput) : Prop :=
  forall cn f, declares schema cn f ->
    exists m, extract_field_counts [] schema !! cn = Some m /\ m !! f = Some not_located.

(** A request whose metadata names the column "value" twice. *)
Definition value_twice_request : CsvGenerationRequest :=
  {| csv_metadata := [ {| metadata_name := "value"; metadata_value := "low" |};
                       {| metadata_name := "value"; metadata_value := "high" |} ];
     cleanup_data := [ {| csv_category := "Plastics";
                          csv_fields := [ {| csv_field_name := "bottles";
                                             csv_field_value := 5 |} ] |} ] |}.


(** The field names of [paper_schema], and the card with "Paper straws" on
    the line of "Paper cups", in reading order. *)
Definition paper_names : list string := ["Paper cups"; "Paper straws"]%string.

Definition straws_on_line : list OcrItem := sorted_results (straws_between 0).


(** * Examples

    The text primitives and the scenarios of the specification, run on the
    embedding. *)

Example lower_ex : Text.lower (Text.of_string "Plastic BOTTLES =8") = Text.of_string "plastic bottles =8".
Proof. reflexivity. Qed.

Example split_ex :
  Text.split (Text.of_string "  plastic   bottle caps ")
  = [Text.of_string "plastic"; Text.of_string "bottle"; Text.of_string "caps"].
Proof. reflexivity. Qed.

Example find_ex : Text.find (Text.of_string "bott") (Text.of_string "plastic bottles bott") = 8.
Proof. reflexivity. Qed.

Example rfind_ex : Text.rfind (Text.of_string "bott") (Text.of_string "plastic bottles bott") = 16.
Proof. reflexivity. Qed.

Example rfind_none_ex : Text.rfind (Text.of_string "cans") (Text.of_string "plastic") = -1.
Proof. reflexivity. Qed.

Example re_search_ex :
  Text.re_search (Text.of_string "cups = 12 =3") = Some (5, Text.of_string "12").
Proof. reflexivity. Qed.

Example re_search_none_ex : Text.re_search (Text.of_string "cups = x12") = None.
Proof. reflexivity. Qed.

Example scenario_embedded :
  _find_item_count "Plastic bottles" [mk_item "Plastic bottles =8" (92 # 100) 10 10] ["Plastic bottles"]
  = (8, (92 # 100)%Q).
Proof. vm_compute. reflexivity. Qed.

Example scenario_linked :
  _find_item_count "Cigarette butts"
    [mk_item "Cigarette butts" (9 # 10) 10 10; mk_item "=12" (85 # 100) 30 10] ["Cigarette butts"]
  = (12, (85 # 100)%Q).
Proof. vm_compute. reflexivity. Qed.

Example scenario_empty :
  extract_field_counts [] (one_field "Metal" "cans") !! "Metal" = Some {[ "cans" := not_located ]}.
Proof. vm_compute. reflexivity. Qed.

(** A candidate 401 pixels to the right is not linked, even alone. *)
Example scenario_too_far :
  _find_item_count "Cigarette butts"
    [mk_item "Cigarette butts" (9 # 10) 10 10; mk_item "=12" (85 # 100) 411 10]
    ["Cigarette butts"]
  = (0, 0%Q).
Proof. vm_compute. reflexivity. Qed.

(** The label of another field between the label and the count blocks
    the count. *)
Example scenario_blocked :
  _find_item_count "Paper cups"
    [mk_item "Paper cups" (9 # 10) 10 10; mk_item "Paper straws" (9 # 10) 110 10;
     mk_item "=5" (8 # 10) 210 10]
    ["Paper cups"; "Paper straws"]
  = (0, 0%Q)
  /\ _find_item_count "Paper straws"
       [mk_item "Paper cups" (9 # 10) 10 10; mk_item "Paper straws" (9 # 10) 110 10;
        mk_item "=5" (8 # 10) 210 10]
       ["Paper cups"; "Paper straws"]
     = (5, (8 # 10)%Q).
Proof. split; vm_compute; reflexivity. Qed.

(** Matching ignores case, and key words out of order lose the bonus. *)
Example quality_case_insensitive :
  match_quality (lower (of_string "PLASTIC BOTTLES")) (key_words_of "Plastic bottles")
  = match_quality (lower (of_string "plastic bottles")) (key_words_of "Plastic bottles").
Proof. reflexivity. Qed.

Example quality_order_bonus :
  (match_quality (lower (of_string "bottles plastic")) (key_words_of "Plastic bottles")
   < match_quality (lower (of_string "plastic bottles")) (key_words_of "Plastic bottles"))%Q.
Proof. vm_compute. reflexivity. Qed.

(** A label read only by the prefixes of its key words does not bound the
    embedded count: full key words alone are looked up. *)
Example embedded_count_prefix_only :
  _find_item_count "Plastic bottles" [mk_item "=5 Plas bott" (9 # 10) 10 10] ["Plastic bottles"]
  = (5, (9 # 10)%Q).
Proof. vm_compute. reflexivity. Qed.

(** A count read as zero with confidence zero is stored as not located. *)
Example zero_count_zero_confidence :
  field_result (_find_item_count "cans" [mk_item "cans =0" 0 10 10] ["cans"]) = not_located
  /\ field_result (_find_item_count "cans" [mk_item "cans =0" (9 # 10) 10 10] ["cans"])
     = {| value := Some 0; field_confidence := Some (9 # 10)%Q |}.
Proof. split; vm_compute; reflexivity. Qed.

(** * Properties *)

(** ** Text primitives *)

Lemma find_from_range p s i :
  find_from p s i = -1 \/ i <= find_from p s i.
Proof.
  revert i. induction s as [|c s IH]; intros i; simpl.
  - destruct (startswith p []); lia.
  - destruct (startswith p (c :: s)); [lia|].
    destruct (IH (i + 1)); lia.
Qed.

Lemma contains_find_from p s i :
  0 <= i -> contains p s = (0 <=? find_from p s i).
Proof.
  revert i. induction s as [|c s IH]; intros i Hi; simpl.
  - destruct (startswith p []); simpl; symmetry; [apply Z.leb_le; lia | reflexivity].
  - destruct (startswith p (c :: s)); simpl.
    + symmetry. apply Z.leb_le. lia.
    + apply IH. lia.
Qed.

Lemma contains_find p s : contains p s = (0 <=? find p s).
Proof. apply contains_find_from. lia. Qed.

Lemma find_ge_m1 p s : -1 <= find p s.
Proof. unfold find. destruct (find_from_range p s 0); lia. Qed.

(** A key word hits exactly when the ordering loop finds a position for
    it: lines 260 and 269-272 agree. *)
Lemma word_hits_pos t w : word_hits t w = (0 <=? word_pos t w).
Proof.
  unfold word_hits, word_pos. rewrite contains_find.
  pose proof (find_ge_m1 w t) as Hf.
  destruct (0 <=? find w t) eqn:E.
  - apply Z.leb_le in E.
    replace (find w t <? 0) with false by (symmetry; apply Z.ltb_ge; lia).
    simpl. symmetry. apply Z.leb_le. lia.
  - apply Z.leb_gt in E.
    replace (find w t <? 0) with true by (symmetry; apply Z.ltb_lt; lia).
    simpl. destruct (4 <=? len w); simpl; [reflexivity|].
    symmetry. apply Z.leb_gt. lia.
Qed.

Lemma match_count_from t ws n :
  fold_left (fun n word => if word_hits t word then n + 1 else n) ws n
  = n + hits t ws.
Proof.
  unfold hits. revert n. induction ws as [|w ws IH]; intros n; simpl.
  - lia.
  - rewrite IH. destruct (word_hits t w); simpl length; lia.
Qed.

Lemma match_count_hits t ws : match_count t ws = hits t ws.
Proof. unfold match_count. rewrite match_count_from. lia. Qed.

Lemma hits_range t ws : 0 <= hits t ws <= Z.of_nat (length ws).
Proof.
  unfold hits. pose proof (filter_length_le (word_hits t) ws). lia.
Qed.

Lemma in_order_from_positions t ws last :
  in_order_from t ws last = increasing_from last (matched_positions t ws).
Proof.
  unfold matched_positions. revert last.
  induction ws as [|w ws IH]; intros last; simpl; [reflexivity|].
  destruct (0 <=? word_pos t w); simpl.
  - rewrite Z.leb_antisym. destruct (last <? word_pos t w); simpl; [apply IH | reflexivity].
  - apply IH.
Qed.

Lemma strictly_increasing_cons p l :
  strictly_increasing (p :: l) = increasing_from p l.
Proof.
  revert p. induction l as [|a l IH]; intros p; [reflexivity|].
  change (strictly_increasing (p :: a :: l)) with ((p <? a) && strictly_increasing (a :: l)).
  rewrite IH. reflexivity.
Qed.

Lemma in_order_strictly_increasing t ws :
  in_order_from t ws (-1) = strictly_increasing (matched_positions t ws).
Proof.
  rewrite in_order_from_positions.
  destruct (matched_positions t ws) as [|p l] eqn:E; [reflexivity|].
  rewrite strictly_increasing_cons. simpl.
  assert (0 <= p) as Hp.
  { assert (In p (matched_positions t ws)) as Hin by (rewrite E; left; reflexivity).
    unfold matched_positions in Hin. apply filter_In in Hin as [_ Hin].
    apply Z.leb_le in Hin. exact Hin. }
  replace (-1 <? p) with true by (symmetry; apply Z.ltb_lt; lia).
  reflexivity.
Qed.

(** ** Rational arithmetic of the match quality *)

Lemma Qlt_bool_iff (a b : Q) : Qlt_bool a b = true <-> (a < b)%Q.
Proof.
  unfold Qlt_bool. rewrite negb_true_iff. split; intros H.
  - apply Qnot_le_lt. intros Hle. apply Qle_bool_iff in Hle. congruence.
  - destruct (Qle_bool b a) eqn:E; [|reflexivity].
    apply Qle_bool_iff in E. exfalso. exact (Qlt_not_le _ _ H E).
Qed.

Lemma ratio_div c ws :
  (ratio c ws == inject_Z c / inject_Z (Z.of_nat (length ws)))%Q.
Proof.
  destruct ws as [|w ws]; [|reflexivity].
  unfold ratio, Qdiv, Qeq. simpl. lia.
Qed.

Lemma ratio_cons c w ws :
  ratio c (w :: ws) = (c # Pos.of_succ_nat (length ws)).
Proof.
  unfold ratio, Qdiv, Qmult, Qinv, inject_Z.
  cbn [length Z.of_nat Qnum Qden]. rewrite Z.mul_1_r. reflexivity.
Qed.

Lemma ratio_range c ws :
  0 <= c <= Z.of_nat (length ws) -> (0 <= ratio c ws <= 1)%Q.
Proof.
  intros Hc. destruct ws as [|w ws].
  - simpl. split; unfold Qle; simpl; lia.
  - rewrite ratio_cons. cbn [length] in Hc.
    unfold Qle; cbn [Qnum Qden]. lia.
Qed.

Lemma ratio_positive c ws :
  0 <= c <= Z.of_nat (length ws) -> Qlt_bool 0 (ratio c ws) = (0 <? c).
Proof.
  intros Hc. apply eq_true_iff_eq. rewrite Qlt_bool_iff, Z.ltb_lt.
  destruct ws as [|w ws].
  - simpl in Hc. simpl. unfold Qlt; simpl. lia.
  - rewrite ratio_cons. unfold Qlt; cbn [Qnum Qden]. lia.
Qed.

(** At least 70 percent, without the division. *)
Lemma ratio_seven_tenths c ws :
  Qle_bool (7 # 10) (ratio c ws) = true
  <-> ws <> [] /\ 7 * Z.of_nat (length ws) <= 10 * c.
Proof.
  rewrite Qle_bool_iff. destruct ws as [|w ws].
  - simpl. unfold Qle; simpl. split; [lia | intros [H _]; congruence].
  - rewrite ratio_cons. unfold Qle; cbn [Qnum Qden length].
    split; [intros H; split; [discriminate | lia] | intros [_ H]; lia].
Qed.

Lemma match_quality_unfold t ws :
  match_quality t ws
  = if strictly_increasing (matched_positions t ws) && (0 <? hits t ws)
    then (ratio (hits t ws) ws + (1 # 2))%Q
    else ratio (hits t ws) ws.
Proof.
  unfold match_quality.
  rewrite match_count_hits, in_order_strictly_increasing.
  rewrite (ratio_positive _ _ (hits_range t ws)). reflexivity.
Qed.

Lemma match_quality_range t ws : (0 <= match_quality t ws <= 3 # 2)%Q.
Proof.
  rewrite match_quality_unfold.
  destruct (ratio_range _ _ (hits_range t ws)) as [H0 H1].
  destruct (_ && _).
  - split.
    + apply Qle_trans with (ratio (hits t ws) ws); [exact H0|].
      rewrite <- (Qplus_0_r (ratio (hits t ws) ws)) at 1.
      apply Qplus_le_compat; [apply Qle_refl | unfold Qle; simpl; lia].
    + apply Qle_trans with (1 + (1 # 2))%Q; [|unfold Qle; simpl; lia].
      apply Qplus_le_compat; [exact H1 | apply Qle_refl].
  - split; [exact H0|].
    apply Qle_trans with 1%Q; [exact H1 | unfold Qle; simpl; lia].
Qed.

(** Membership in the list of label matches (lines 283-284). *)
Lemma item_matches_In ws items m :
  In m (item_matches ws items)
  <-> exists item, In item items
      /\ (1 # 2 <= match_quality (lower (of_string (text item))) ws)%Q
      /\ m = {| m_text := text item; m_x := x_min (box item); m_y := y_min (box item);
                m_conf := confidence item;
                m_quality := match_quality (lower (of_string (text item))) ws |}.
Proof.
  unfold item_matches. rewrite in_flat_map. split.
  - intros (item & Hin & Hm). exists item. split; [exact Hin|].
    destruct (Qle_bool _ _) eqn:E; [|destruct Hm].
    apply Qle_bool_iff in E. destruct Hm as [<- | []]. split; [exact E | reflexivity].
  - intros (item & Hin & Hq & ->). exists item. split; [exact Hin|].
    apply Qle_bool_iff in Hq. rewrite Hq. left. reflexivity.
Qed.

(** ** The fuzzy label matcher (claim C8) *)

(** C8, as the code has it.  The match quality is the share of key words
    that hit the lower-cased text, plus one half exactly when the positions
    of the matched key words (full word, else its 4-character prefix)
    increase strictly in schema word order AND at least one key word hits;
    it lies between 0 and 1.5; a fragment is kept as a label match exactly
    when its quality reaches one half. *)
Theorem match_quality_formula (text_lower : str) (key_words : list str) (items : list OcrItem) :
  (match_quality text_lower key_words
   == inject_Z (hits text_lower key_words) / inject_Z (Z.of_nat (length key_words))
      + (if strictly_increasing (matched_positions text_lower key_words)
            && (0 <? hits text_lower key_words)
         then 1 # 2 else 0))%Q
  /\ (0 <= match_quality text_lower key_words <= 3 # 2)%Q
  /\ (forall m, In m (item_matches key_words items)
      <-> exists item, In item items
          /\ (1 # 2 <= match_quality (lower (of_string (text item))) key_words)%Q
          /\ m = {| m_text := text item; m_x := x_min (box item); m_y := y_min (box item);
                    m_conf := confidence item;
                    m_quality := match_quality (lower (of_string (text item))) key_words |}).
Proof.
  split; [|split].
  - rewrite match_quality_unfold, <- ratio_div.
    destruct (_ && _); [reflexivity | rewrite Qplus_0_r; reflexivity].
  - apply match_quality_range.
  - intros m. apply item_matches_In.
Qed.

(** C8 as worded fails where no key word hits: no position is out of
    order, so the wording grants the bonus and the fragment would reach the
    threshold, while the code leaves the quality at 0 and drops it. *)
Lemma match_quality_formula_counterexample :
  ~ (match_quality (lower (of_string "xyz")) (key_words_of "cans")
     == spec_match_quality (lower (of_string "xyz")) (key_words_of "cans"))%Q
  /\ (match_quality (lower (of_string "xyz")) (key_words_of "cans") == 0)%Q
  /\ (spec_match_quality (lower (of_string "xyz")) (key_words_of "cans") == 1 # 2)%Q
  /\ item_matches (key_words_of "cans") [mk_item "xyz" (9 # 10) 0 0] = [].
Proof.
  split; [|split; [|split]]; vm_compute; try reflexivity.
  intros H. discriminate H.
Qed.

(** ** Anchor selection (claim C9) *)

Lemma sort_stable_nil {A} (le : A -> A -> bool) (l : list A) :
  sort_stable le l = [] -> l = [].
Proof.
  destruct l as [|x l]; [reflexivity|]. simpl.
  destruct (sort_stable le l); simpl; [discriminate|].
  destruct (le x a); discriminate.
Qed.

(** The head of the sorted matches is the first match of best quality. *)
Lemma sort_matches_head (ms : list ItemMatch) :
  head (sort_matches ms) = first_best ms.
Proof.
  induction ms as [|x ms IH]; [reflexivity|].
  unfold sort_matches in *. simpl.
  destruct (sort_stable _ ms) as [|h t] eqn:E; simpl in *.
  - rewrite <- IH. reflexivity.
  - rewrite <- IH. destruct (Qle_bool (m_quality h) (m_quality x)); reflexivity.
Qed.

(** What being the first match of best quality means: nothing before it
    is as good, nothing after it is better. *)
Lemma first_best_split (ms : list ItemMatch) (m : ItemMatch) :
  first_best ms = Some m ->
  exists before after,
    ms = before ++ m :: after
    /\ Forall (fun a => (m_quality a < m_quality m)%Q) before
    /\ Forall (fun a => (m_quality a <= m_quality m)%Q) after.
Proof.
  revert m. induction ms as [|x ms IH]; intros m H; [discriminate|].
  simpl in H. destruct (first_best ms) as [b|] eqn:E.
  - destruct (IH b eq_refl) as (l1 & l2 & Hms & H1 & H2).
    destruct (Qle_bool (m_quality b) (m_quality x)) eqn:Hle.
    + injection H as <-. apply Qle_bool_iff in Hle.
      exists [], ms. split; [reflexivity|]. split; [constructor|].
      rewrite Hms. apply Forall_app. split.
      * eapply List.Forall_impl; [|exact H1]. simpl. intros a Ha.
        apply Qle_trans with (m_quality b); [apply Qlt_le_weak; exact Ha | exact Hle].
      * constructor; [exact Hle|].
        eapply List.Forall_impl; [|exact H2]. simpl. intros a Ha.
        apply Qle_trans with (m_quality b); [exact Ha | exact Hle].
    + injection H as <-.
      assert (m_quality x < m_quality b)%Q as Hlt.
      { apply Qnot_le_lt. intros Hc. apply Qle_bool_iff in Hc. congruence. }
      exists (x :: l1), l2. split; [rewrite Hms; reflexivity|].
      split; [constructor; assumption | exact H2].
  - injection H as <-. destruct ms as [|y ms].
    + exists [], []. repeat split; constructor.
    + simpl in E. destruct (first_best ms); [destruct (Qle_bool _ _)|]; discriminate.
Qed.

Lemma first_best_defined (ms : list ItemMatch) :
  ms <> [] -> exists m, first_best ms = Some m.
Proof.
  destruct ms as [|x ms]; [congruence|]. intros _. simpl.
  destruct (first_best ms) as [b|]; [destruct (Qle_bool _ _)|]; eauto.
Qed.

Lemma sort_matches_In ms m : head (sort_matches ms) = Some m -> In m ms.
Proof.
  rewrite sort_matches_head. intros H.
  apply first_best_split in H as (l1 & l2 & -> & _).
  apply in_or_app. right. left. reflexivity.
Qed.

(** *** The sort by position *)

Lemma insert_stable_perm {A} (le : A -> A -> bool) (x : A) (l : list A) :
  Permutation (insert_stable le x l) (x :: l).
Proof.
  induction l as [|h t IH]; simpl; [reflexivity|].
  destruct (le x h); [reflexivity|].
  rewrite IH. apply perm_swap.
Qed.

(** The sort keeps the fragments: it only reorders them. *)
Lemma sort_stable_perm {A} (le : A -> A -> bool) (l : list A) :
  Permutation (sort_stable le l) l.
Proof.
  induction l as [|x l IH]; simpl; [reflexivity|].
  rewrite insert_stable_perm. constructor. exact IH.
Qed.

(** A list that is in order already is left as it is. *)
Lemma sort_stable_sorted_id {A} (le : A -> A -> bool) (l : list A) :
  StronglySorted (fun a b => le a b = true) l -> sort_stable le l = l.
Proof.
  induction 1 as [|x l Hs IH Hall]; simpl; [reflexivity|].
  rewrite IH. destruct l as [|h t]; [reflexivity|].
  simpl. inversion Hall as [|? ? Hh _]; subst. rewrite Hh. reflexivity.
Qed.

Lemma insert_stable_sorted {A} (le : A -> A -> bool) (x : A) (l : list A) :
  (forall a b, le a b = false -> le b a = true) ->
  (forall a b c, le a b = true -> le b c = true -> le a c = true) ->
  StronglySorted (fun a b => le a b = true) l ->
  StronglySorted (fun a b => le a b = true) (insert_stable le x l).
Proof.
  intros Htot Htrans. induction 1 as [|h t Hs IH Hall]; simpl.
  - constructor; constructor.
  - destruct (le x h) eqn:E.
    + constructor; [constructor; assumption|].
      constructor; [exact E|].
      eapply List.Forall_impl; [|exact Hall]. intros a Ha. eapply Htrans; eassumption.
    + constructor; [exact IH|].
      eapply Permutation_Forall.
      * symmetry. apply insert_stable_perm.
      * constructor; [apply Htot; exact E | exact Hall].
Qed.

Lemma position_order_total a b :
  negb (position_lt b a) = false -> negb (position_lt a b) = true.
Proof.
  unfold position_lt. rewrite negb_false_iff, negb_true_iff.
  rewrite orb_true_iff, orb_false_iff, !andb_true_iff, !andb_false_iff.
  rewrite !Z.ltb_lt, !Z.ltb_ge, !Z.eqb_eq, !Z.eqb_neq. lia.
Qed.

Lemma position_order_trans a b c :
  negb (position_lt b a) = true -> negb (position_lt c b) = true ->
  negb (position_lt c a) = true.
Proof.
  unfold position_lt. rewrite !negb_true_iff.
  rewrite !orb_false_iff, !andb_false_iff.
  rewrite !Z.ltb_ge, !Z.eqb_neq. lia.
Qed.

(** Line 184 leaves the fragments in reading order: by y_min, then by
    x_min. *)
Lemma sorted_results_sorted (ocr_results : list OcrItem) :
  StronglySorted (fun a b => negb (position_lt b a) = true) (sorted_results ocr_results).
Proof.
  unfold sorted_results. induction ocr_results as [|x l IH]; simpl; [constructor|].
  apply (insert_stable_sorted (fun a b => negb (position_lt b a))).
  - intros a b. apply position_order_total.
  - intros a b c. apply position_order_trans.
  - exact IH.
Qed.

Lemma insert_stable_filter {A} (le : A -> A -> bool) (p : A -> bool) (x : A) (l : list A) :
  (p x = true -> forall h, le x h = false -> p h = false) ->
  List.filter p (insert_stable le x l) = List.filter p (x :: l).
Proof.
  intros Hclass. induction l as [|h t IH]; [reflexivity|].
  cbn [insert_stable]. destruct (le x h) eqn:E; [reflexivity|].
  cbn [List.filter] in *. rewrite IH.
  destruct (p x) eqn:Hx; [|reflexivity].
  rewrite (Hclass eq_refl h E). reflexivity.
Qed.

(** The sort of line 184 is stable: the fragments at one position come
    out in the order they went in. *)
Lemma sorted_results_stable (ocr_results : list OcrItem) (y x : Z) :
  List.filter (at_position y x) (sorted_results ocr_results)
  = List.filter (at_position y x) ocr_results.
Proof.
  unfold sorted_results. induction ocr_results as [|a l IH]; [reflexivity|].
  cbn [sort_stable foldr]. rewrite insert_stable_filter.
  - cbn [List.filter]. fold (sort_stable (fun a b => negb (position_lt b a)) l).
    rewrite IH. reflexivity.
  - intros Ha h Hh. unfold at_position in *.
    apply andb_true_iff in Ha as [Hy Hx]. apply Z.eqb_eq in Hy, Hx.
    apply negb_false_iff in Hh. unfold position_lt in Hh.
    apply andb_false_iff.
    apply orb_true_iff in Hh as [Hh | Hh].
    + apply Z.ltb_lt in Hh. left. apply Z.eqb_neq. lia.
    + apply andb_true_iff in Hh as [_ Hh]. apply Z.ltb_lt in Hh.
      right. apply Z.eqb_neq. lia.
Qed.

(** A match of the list stands where its fragment stands. *)
Lemma item_matches_by_split (quality : OcrItem -> Q) (l : list OcrItem)
    (before after : list ItemMatch) (m : ItemMatch) :
  item_matches_by quality l = before ++ m :: after ->
  exists l1 a l2,
    l = l1 ++ a :: l2
    /\ m = match_of a (quality a)
    /\ (1 # 2 <= quality a)%Q
    /\ item_matches_by quality l1 = before
    /\ item_matches_by quality l2 = after.
Proof.
  revert before. induction l as [|x l IH]; intros before H.
  - destruct before; discriminate.
  - unfold item_matches_by in H. cbn [flat_map] in H.
    fold (item_matches_by quality l) in H.
    destruct (Qle_bool (1 # 2) (quality x)) eqn:E.
    + destruct before as [|b before]; cbn [app] in H.
      * injection H as <- Hrest. exists [], x, l.
        apply Qle_bool_iff in E. auto.
      * injection H as <- Hrest.
        destruct (IH before Hrest) as (l1 & a & l2 & -> & Hm & Hq & H1 & H2).
        exists (x :: l1), a, l2. split; [reflexivity|]. split; [exact Hm|].
        split; [exact Hq|]. split; [|exact H2].
        unfold item_matches_by. cbn [flat_map]. rewrite E.
        fold (item_matches_by quality l1). rewrite H1. reflexivity.
    + cbn [app] in H.
      destruct (IH before H) as (l1 & a & l2 & -> & Hm & Hq & H1 & H2).
      exists (x :: l1), a, l2. split; [reflexivity|]. split; [exact Hm|].
      split; [exact Hq|]. split; [|exact H2].
      unfold item_matches_by. cbn [flat_map]. rewrite E. exact H1.
Qed.

Lemma item_matches_by_quality (quality : OcrItem -> Q) (l : list OcrItem) (bound : Q)
    (strict : bool) :
  (1 # 2 <= bound)%Q ->
  Forall (fun a => if strict then (m_quality a < bound)%Q else (m_quality a <= bound)%Q)
         (item_matches_by quality l) ->
  Forall (fun b => if strict then (quality b < bound)%Q else (quality b <= bound)%Q) l.
Proof.
  intros Hb. induction l as [|x l IH]; intros H; [constructor|].
  unfold item_matches_by in H. cbn [flat_map] in H. fold (item_matches_by quality l) in H.
  destruct (Qle_bool (1 # 2) (quality x)) eqn:E.
  - cbn [app] in H. inversion H as [|? ? Hx Hl]; subst.
    constructor; [exact Hx | apply IH; exact Hl].
  - constructor; [|apply IH; exact H].
    assert (quality x < 1 # 2)%Q as Hlt.
    { apply Qnot_le_lt. intros Hc. apply Qle_bool_iff in Hc. congruence. }
    destruct strict.
    + apply Qlt_le_trans with (1 # 2); assumption.
    + apply Qlt_le_weak. apply Qlt_le_trans with (1 # 2); assumption.
Qed.

(** C9, as the code has it.  Whatever qualities the matcher gives the
    fragments (the assignment [quality] stands for the floats of lines
    263-280; the exact quotients of [match_quality] are one such
    assignment), the anchor is the first fragment of best quality in the
    order of the fragments after their sort by (y_min, x_min): no fragment
    before it in that order is as good, none after it is better.  That sort
    is stable: it rearranges the input into reading order, keeps the input
    order among fragments at the same position, and leaves an input that is
    in reading order as it is.  A tie is no error: whenever some fragment
    reaches the threshold, an anchor is selected. *)
Theorem anchor_first_best_any_quality (quality : OcrItem -> Q)
    (ocr_results : list OcrItem) (item_name : string) :
  let ms := item_matches_by quality (sorted_results ocr_results) in
  item_matches (key_words_of item_name) (sorted_results ocr_results)
  = item_matches_by (fun item => match_quality (lower (of_string (text item)))
                                               (key_words_of item_name))
                    (sorted_results ocr_results)
  /\ (forall m, head (sort_matches ms) = Some m ->
        exists earlier anchor later,
          sorted_results ocr_results = earlier ++ anchor :: later
          /\ m = match_of anchor (quality anchor)
          /\ (1 # 2 <= quality anchor)%Q
          /\ Forall (fun b => (quality b < quality anchor)%Q) earlier
          /\ Forall (fun b => (quality b <= quality anchor)%Q) later)
  /\ ((exists a, In a ocr_results /\ (1 # 2 <= quality a)%Q) ->
      exists m, head (sort_matches ms) = Some m)
  /\ Permutation (sorted_results ocr_results) ocr_results
  /\ StronglySorted (fun a b => negb (position_lt b a) = true) (sorted_results ocr_results)
  /\ (forall y x, List.filter (at_position y x) (sorted_results ocr_results)
                  = List.filter (at_position y x) ocr_results)
  /\ (StronglySorted (fun a b => negb (position_lt b a) = true) ocr_results ->
      sorted_results ocr_results = ocr_results).
Proof.
  intros ms. split; [reflexivity|]. split; [|split; [|split; [|split; [|split]]]].
  - intros m H. rewrite sort_matches_head in H.
    apply first_best_split in H as (before & after & Hms & Hb & Ha).
    destruct (item_matches_by_split quality _ _ _ _ Hms)
      as (l1 & a & l2 & Hl & Hm & Hq & H1 & H2).
    exists l1, a, l2. split; [exact Hl|]. split; [exact Hm|]. split; [exact Hq|].
    assert (m_quality m = quality a) as Hqm by (rewrite Hm; reflexivity).
    rewrite Hqm in Hb, Ha. split.
    + apply (item_matches_by_quality quality l1 (quality a) true Hq).
      rewrite H1. exact Hb.
    + apply (item_matches_by_quality quality l2 (quality a) false Hq).
      rewrite H2. exact Ha.
  - intros (a & Hin & Hq). rewrite sort_matches_head. apply first_best_defined.
    assert (In a (sorted_results ocr_results)) as Hin'.
    { eapply Permutation_in; [symmetry; apply sort_stable_perm | exact Hin]. }
    intros Hnil.
    assert (In (match_of a (quality a)) ms) as Hm.
    { unfold ms, item_matches_by. apply in_flat_map. exists a. split; [exact Hin'|].
      apply Qle_bool_iff in Hq. rewrite Hq. left. reflexivity. }
    rewrite Hnil in Hm. destruct Hm.
  - apply sort_stable_perm.
  - apply sorted_results_sorted.
  - intros y x. apply sorted_results_stable.
  - apply (sort_stable_sorted_id (fun a b => negb (position_lt b a))).
Qed.

(** C9 as worded fails on a fragment list that is not in reading order: of
    two fragments that tie for "cans", the second of the input lies higher
    on the card, is sorted to the front and becomes the anchor, so the
    field takes its count 7 and not the 3 of the first fragment. *)
Lemma anchor_first_in_input_order_counterexample :
  let frs := [mk_item "cans =3" (9 # 10) 0 100; mk_item "cans =7" (8 # 10) 0 0] in
  let kws := key_words_of "cans" in
  option_map m_text (first_best (item_matches kws frs)) = Some "cans =3"%string
  /\ option_map m_text (head (sort_matches (item_matches kws (sorted_results frs))))
     = Some "cans =7"%string
  /\ head (sort_matches (item_matches kws (sorted_results frs)))
     <> first_best (item_matches kws frs)
  /\ extract_field_counts frs (one_field "Metal" "cans") !! "Metal"
     = Some {[ "cans"%string := {| value := Some 7; field_confidence := Some (8 # 10)%Q |} ]}.
Proof.
  cbv zeta. split; [|split; [|split]]; try (vm_compute; reflexivity).
  vm_compute. intros H. discriminate H.
Qed.

(** ** The spatial linker (claims C6 and C7) *)

Lemma in_window_iff dx dy :
  in_window dx dy = true <-> 0 < dx < 400 /\ dy < 18.
Proof.
  unfold in_window. rewrite !andb_true_iff, !Z.ltb_lt. lia.
Qed.

Lemma blocks_iff item_x item_y x other_item check_item :
  blocks item_x item_y x (other_words_of other_item) check_item = true
  <-> intervenes item_x item_y x other_item check_item.
Proof.
  unfold blocks, intervenes, other_match_quality. cbv zeta.
  rewrite !andb_true_iff, !Z.ltb_lt, ratio_seven_tenths. tauto.
Qed.

(** The blocking rule: a candidate at [x] is blocked exactly when another
    schema item has a label fragment standing in between. *)
Lemma blocked_iff item_name item_x item_y x ocr_items all_items :
  blocked item_name item_x item_y x ocr_items all_items = true
  <-> exists other_item check_item,
        In other_item all_items /\ other_item <> item_name
        /\ In check_item ocr_items
        /\ intervenes item_x item_y x other_item check_item.
Proof.
  unfold blocked. rewrite existsb_exists. split.
  - intros (other & Hin & H). destruct (String.eqb other item_name) eqn:E; [discriminate|].
    apply String.eqb_neq in E. apply existsb_exists in H as (chk & Hc & Hb).
    exists other, chk. rewrite <- blocks_iff. auto.
  - intros (other & chk & Hin & Hne & Hc & Hi). exists other. split; [exact Hin|].
    apply String.eqb_neq in Hne. rewrite Hne.
    apply existsb_exists. exists chk. rewrite blocks_iff. auto.
Qed.

Section Linker.

Variables (item_name : string) (item_x item_y : Z).
Variables (ocr_items : list OcrItem) (all_items : list string).

Lemma link_step_eligible b c n :
  candidate_count c = Some n ->
  eligible item_name item_x item_y ocr_items all_items c ->
  link_step item_name item_x item_y ocr_items all_items b c
  = if closer (dx_of item_x c) (best_distance b)
    then {| best_count := Some n; best_confidence := Some (confidence c);
            best_distance := Some (dx_of item_x c) |}
    else b.
Proof.
  unfold candidate_count, link_step, eligible, dx_of.
  destruct (re_search _) as [[pos ds]|]; [|discriminate].
  intros [= <-] (_ & Hdx & Hdy & Hb).
  replace (in_window _ _) with true by (symmetry; apply in_window_iff; lia).
  rewrite Hb. reflexivity.
Qed.

Lemma link_step_not_eligible b c :
  ~ eligible item_name item_x item_y ocr_items all_items c ->
  link_step item_name item_x item_y ocr_items all_items b c = b.
Proof.
  unfold link_step, eligible, candidate_count.
  destruct (re_search _) as [[pos ds]|]; [|reflexivity].
  intros Hn. cbv zeta.
  destruct (in_window _ _) eqn:Hw; [|reflexivity].
  destruct (blocked _ _ _ _ _ _) eqn:Hb; [reflexivity|].
  exfalso. apply Hn. apply in_window_iff in Hw. repeat split; try lia; eauto.
Qed.

Lemma eligible_dec c :
  eligible item_name item_x item_y ocr_items all_items c
  \/ ~ eligible item_name item_x item_y ocr_items all_items c.
Proof.
  unfold eligible.
  destruct (candidate_count c) as [n|]; [|right; intros [[? H] _]; discriminate].
  destruct (in_window (x_min (box c) - item_x) (Z.abs (y_min (box c) - item_y))) eqn:Hw.
  - apply in_window_iff in Hw.
    destruct (blocked item_name item_x item_y (x_min (box c)) ocr_items all_items) eqn:Hb.
    + right. intros (_ & _ & _ & H). discriminate.
    + left. repeat split; try lia; eauto.
  - right. intros (_ & H1 & H2 & _).
    assert (in_window (x_min (box c) - item_x) (Z.abs (y_min (box c) - item_y)) = true)
      by (apply in_window_iff; lia).
    congruence.
Qed.

Lemma link_step_inv done b c :
  link_inv item_name item_x item_y ocr_items all_items done b ->
  link_inv item_name item_x item_y ocr_items all_items (done ++ [c])
           (link_step item_name item_x item_y ocr_items all_items b c).
Proof.
  intros Hinv. destruct (eligible_dec c) as [He | Hne].
  - pose proof He as ([n Hn] & _).
    rewrite (link_step_eligible b c n Hn He).
    destruct Hinv as [(-> & Hnone) | (c0 & n0 & Hin0 & He0 & Hn0 & -> & Hmin)].
    + simpl. right. exists c, n.
      split; [apply in_or_app; right; left; reflexivity|].
      split; [exact He|]. split; [exact Hn|]. split; [reflexivity|].
      intros c' Hin' He''. apply in_app_or in Hin' as [Hin' | [<- | []]]; [|lia].
      exfalso. exact (Hnone c' Hin' He'').
    + simpl. destruct (dx_of item_x c <? dx_of item_x c0) eqn:Hlt.
      * apply Z.ltb_lt in Hlt. right. exists c, n.
        split; [apply in_or_app; right; left; reflexivity|].
        split; [exact He|]. split; [exact Hn|]. split; [reflexivity|].
        intros c' Hin' He''. apply in_app_or in Hin' as [Hin' | [<- | []]]; [|lia].
        specialize (Hmin c' Hin' He''). lia.
      * apply Z.ltb_ge in Hlt. right. exists c0, n0.
        split; [apply in_or_app; left; exact Hin0|].
        split; [exact He0|]. split; [exact Hn0|]. split; [reflexivity|].
        intros c' Hin' He''. apply in_app_or in Hin' as [Hin' | [<- | []]]; [|lia].
        exact (Hmin c' Hin' He'').
  - rewrite (link_step_not_eligible b c Hne).
    destruct Hinv as [(-> & Hnone) | (c0 & n0 & Hin0 & He0 & Hn0 & -> & Hmin)].
    + left. split; [reflexivity|]. intros c' Hin'.
      apply in_app_or in Hin' as [Hin' | [<- | []]]; [apply Hnone; exact Hin' | exact Hne].
    + right. exists c0, n0.
      split; [apply in_or_app; left; exact Hin0|].
      split; [exact He0|]. split; [exact Hn0|]. split; [reflexivity|].
      intros c' Hin' He''. apply in_app_or in Hin' as [Hin' | [<- | []]].
      * exact (Hmin c' Hin' He'').
      * contradiction.
Qed.

Lemma link_fold_inv l :
  link_inv item_name item_x item_y ocr_items all_items l
           (fold_left (link_step item_name item_x item_y ocr_items all_items) l no_best).
Proof.
  induction l as [|c l IH] using rev_ind.
  - left. split; [reflexivity | intros c []].
  - rewrite fold_left_app. simpl. apply link_step_inv. exact IH.
Qed.

(** The linker, characterised. *)
Lemma spatial_link_inv :
  link_inv item_name item_x item_y ocr_items all_items ocr_items
           (spatial_link item_name item_x item_y ocr_items all_items).
Proof. apply link_fold_inv. Qed.

Lemma spatial_link_confidence_set :
  is_Some (best_count (spatial_link item_name item_x item_y ocr_items all_items))
  <-> is_Some (best_confidence (spatial_link item_name item_x item_y ocr_items all_items)).
Proof.
  destruct spatial_link_inv as [(-> & _) | (c & n & _ & _ & _ & -> & _)]; simpl.
  - split; intros [? H]; discriminate.
  - split; intros _; eauto.
Qed.

End Linker.

(** *** The pattern and the key words, from their wording *)

Lemma digit_not_space c : is_digit c = true -> is_space c = false.
Proof.
  unfold is_digit, is_space. rewrite andb_true_iff, !Z.leb_le. intros [H1 H2].
  apply orb_false_iff. split; apply andb_false_iff.
  - right. apply Z.leb_gt. lia.
  - right. apply Z.leb_gt. lia.
Qed.

Lemma skip_spaces_app spaces rest :
  Forall (fun c => is_space c = true) spaces ->
  match rest with [] => True | c :: _ => is_space c = false end ->
  skip_spaces (spaces ++ rest) = rest.
Proof.
  intros Hs Hr. induction Hs as [|c l Hc Hl IH]; simpl.
  - destruct rest as [|c r]; [reflexivity|]. simpl. rewrite Hr. reflexivity.
  - rewrite Hc. exact IH.
Qed.

Lemma take_digits_app digits rest :
  Forall (fun c => is_digit c = true) digits ->
  match rest with [] => True | c :: _ => is_digit c = false end ->
  take_digits (digits ++ rest) = digits.
Proof.
  intros Hd Hr. induction Hd as [|c l Hc Hl IH]; simpl.
  - destruct rest as [|c r]; [reflexivity|]. simpl. rewrite Hr. reflexivity.
  - rewrite Hc, IH. reflexivity.
Qed.

Lemma re_search_from_count_text before spaces digits rest i :
  Forall (fun c => c <> "="%char) before ->
  Forall (fun c => is_space c = true) spaces ->
  digits <> [] ->
  Forall (fun c => is_digit c = true) digits ->
  match rest with [] => True | c :: _ => is_digit c = false end ->
  re_search_from (before ++ "="%char :: spaces ++ digits ++ rest) i
  = Some (i + len before, digits).
Proof.
  intros Hb Hs Hne Hd Hr. revert i.
  induction Hb as [|c l Hc Hl IH]; intros i.
  - cbn [app]. unfold len. cbn [length Z.of_nat].
    assert (match_here ("="%char :: spaces ++ digits ++ rest) = Some digits) as Hm.
    { unfold match_here. cbn [Ascii.eqb Bool.eqb]. simpl.
      rewrite skip_spaces_app; [| exact Hs |].
      - rewrite (take_digits_app _ _ Hd Hr).
        destruct digits; [congruence | reflexivity].
      - destruct digits as [|d ds]; [congruence|]. cbn [app].
        inversion Hd; subst. apply digit_not_space. assumption. }
    cbn [re_search_from]. rewrite Hm. f_equal. f_equal. lia.
  - cbn [app re_search_from].
    assert (match_here (c :: l ++ "="%char :: spaces ++ digits ++ rest) = None) as Hm.
    { unfold match_here. destruct (Ascii.eqb_spec c "="); [contradiction | reflexivity]. }
    rewrite Hm, IH. unfold len. cbn [length]. f_equal. f_equal. lia.
Qed.

(** A fragment whose text has the shape of a count is a candidate, with
    the number its digits spell. *)
Lemma candidate_count_of_text (item : OcrItem) (digits : str) :
  count_text (of_string (text item)) digits ->
  candidate_count item = Some (int_of_digits digits).
Proof.
  intros (before & spaces & rest & Ht & Hb & Hs & Hne & Hd & Hr).
  unfold candidate_count, re_search. rewrite Ht.
  rewrite (re_search_from_count_text _ _ _ _ 0 Hb Hs Hne Hd Hr). reflexivity.
Qed.

Lemma filter_nil_existsb {A} (p : A -> bool) (l : list A) :
  existsb p l = false <-> List.filter p l = [].
Proof.
  induction l as [|x l IH]; simpl; [tauto|].
  destruct (p x); simpl; [split; discriminate | exact IH].
Qed.

(** The key words the blocking loop recomputes (lines 341-344) are the
    key words of the field as section 4.1 words them. *)
Lemma other_words_of_spec (other : string) : other_words_of other = spec_key_words other.
Proof.
  unfold other_words_of, spec_key_words. cbv zeta.
  destruct (existsb (fun w => 3 <? len w) (split (lower (of_string other)))) eqn:E.
  - destruct (List.filter _ _) eqn:F; [|reflexivity].
    apply filter_nil_existsb in F. congruence.
  - apply filter_nil_existsb in E. rewrite E. reflexivity.
Qed.

Lemma key_words_of_spec (field : string) : key_words_of field = spec_key_words field.
Proof. rewrite <- other_words_of_spec. reflexivity. Qed.

Lemma blocked_label_between item_name item_x item_y x ocr_items all_items :
  blocked item_name item_x item_y x ocr_items all_items = true
  <-> some_label_between 15 item_name item_x item_y x ocr_items all_items.
Proof.
  rewrite blocked_iff. unfold some_label_between, label_between, intervenes, words_found.
  cbv zeta. split; intros (other & chk & H1 & H2 & H3 & H4); exists other, chk;
    [rewrite <- other_words_of_spec | rewrite other_words_of_spec]; auto.
Qed.

(** Where [_find_item_count] reaches the linker: the anchor is a fragment
    of the list, and what is returned is the record of the loop. *)
Lemma find_item_count_linked item_name ocr_items all_items m :
  head (sort_matches (item_matches (key_words_of item_name) ocr_items)) = Some m ->
  embedded_count (m_text m) (key_words_of item_name) = None ->
  (exists label, In label ocr_items /\ text label = m_text m
                 /\ x_min (box label) = m_x m /\ y_min (box label) = m_y m
                 /\ confidence label = m_conf m)
  /\ ((exists c n,
         In c ocr_items
         /\ eligible item_name (m_x m) (m_y m) ocr_items all_items c
         /\ candidate_count c = Some n
         /\ (forall c', In c' ocr_items ->
                        eligible item_name (m_x m) (m_y m) ocr_items all_items c' ->
                        x_min (box c) - m_x m <= x_min (box c') - m_x m)
         /\ _find_item_count item_name ocr_items all_items = (n, confidence c))
      \/ ((forall c, In c ocr_items ->
                     ~ eligible item_name (m_x m) (m_y m) ocr_items all_items c)
          /\ _find_item_count item_name ocr_items all_items = (0, 0%Q))).
Proof.
  intros Hhead Hemb. split.
  - apply sort_matches_In in Hhead. apply item_matches_In in Hhead as (item & Hin & _ & ->).
    exists item. simpl. auto.
  - unfold _find_item_count.
    destruct (sort_matches _) as [|m' rest]; [discriminate|].
    simpl in Hhead. injection Hhead as ->. rewrite Hemb.
    destruct (spatial_link_inv item_name (m_x m) (m_y m) ocr_items all_items)
      as [(Hb & Hn) | (c & n & Hin & He & Hn & Hb & Hmin)]; rewrite Hb; simpl.
    + right. auto.
    + left. exists c, n. unfold dx_of in Hmin. auto.
Qed.

(** C6.  When [_find_item_count] has its anchor and finds no embedded
    count, what it returns is the linker's: the count and the confidence of
    one fragment [c] that carries the pattern, lies strictly to the right
    of the label by less than 400 pixels (0 < dx < 400 for dx = c.x_min -
    label.x_min) and less than 18 pixels off its line (dy < 18), is not
    blocked, and has the smallest dx of all such fragments - the confidence
    is [c]'s own, not the label's; or (0, 0.0) when no fragment qualifies.
    So a candidate 400 pixels or more away (dx = 401) is never returned,
    even if it is the only one.  Every fragment whose text has the shape
    of a count is such a candidate. *)
Theorem linked_count_nearest_right (item_name : string) (ocr_items : list OcrItem)
    (all_items : list string) (m : ItemMatch) :
  head (sort_matches (item_matches (key_words_of item_name) ocr_items)) = Some m ->
  embedded_count (m_text m) (key_words_of item_name) = None ->
  (exists label, In label ocr_items /\ text label = m_text m
                 /\ x_min (box label) = m_x m /\ y_min (box label) = m_y m
                 /\ confidence label = m_conf m)
  /\ ((exists c n,
         In c ocr_items
         /\ candidate_count c = Some n
         /\ 0 < x_min (box c) - m_x m < 400
         /\ Z.abs (y_min (box c) - m_y m) < 18
         /\ blocked item_name (m_x m) (m_y m) (x_min (box c)) ocr_items all_items = false
         /\ (forall c', In c' ocr_items ->
                        eligible item_name (m_x m) (m_y m) ocr_items all_items c' ->
                        x_min (box c) - m_x m <= x_min (box c') - m_x m)
         /\ _find_item_count item_name ocr_items all_items = (n, confidence c))
      \/ ((forall c, In c ocr_items ->
                     ~ eligible item_name (m_x m) (m_y m) ocr_items all_items c)
          /\ _find_item_count item_name ocr_items all_items = (0, 0%Q)))
  /\ ((forall c, In c ocr_items -> is_Some (candidate_count c) ->
                 400 <= x_min (box c) - m_x m)
      -> _find_item_count item_name ocr_items all_items = (0, 0%Q))
  /\ (forall item digits,
        count_text (of_string (text item)) digits ->
        candidate_count item = Some (int_of_digits digits)).
Proof.
  intros Hhead Hemb.
  destruct (find_item_count_linked item_name ocr_items all_items m Hhead Hemb)
    as [Hlabel Hcases].
  split; [exact Hlabel|]. split; [|split].
  - destruct Hcases as [(c & n & Hin & He & Hn & Hmin & Hr) | Hnone]; [|right; exact Hnone].
    left. exists c, n. destruct He as (_ & Hdx & Hdy & Hb). auto 10.
  - intros Hfar.
    destruct Hcases as [(c & n & Hin & He & _) | [_ Hr]]; [|exact Hr].
    destruct He as (Hc & Hdx & _). specialize (Hfar c Hin Hc). lia.
  - apply candidate_count_of_text.
Qed.

Lemma linked_count_nearest_right_witness :
  ((exists label, In label linked_card /\ text label = m_text linked_card_match
                  /\ x_min (box label) = m_x linked_card_match
                  /\ y_min (box label) = m_y linked_card_match
                  /\ confidence label = m_conf linked_card_match)
   /\ ((exists c n,
          In c linked_card
          /\ candidate_count c = Some n
          /\ 0 < x_min (box c) - m_x linked_card_match < 400
          /\ Z.abs (y_min (box c) - m_y linked_card_match) < 18
          /\ blocked "Cigarette butts" (m_x linked_card_match) (m_y linked_card_match)
                     (x_min (box c)) linked_card ["Cigarette butts"%string] = false
          /\ (forall c', In c' linked_card ->
                         eligible "Cigarette butts" (m_x linked_card_match)
                                  (m_y linked_card_match) linked_card
                                  ["Cigarette butts"%string] c' ->
                         x_min (box c) - m_x linked_card_match
                         <= x_min (box c') - m_x linked_card_match)
          /\ _find_item_count "Cigarette butts" linked_card ["Cigarette butts"%string]
             = (n, confidence c))
       \/ ((forall c, In c linked_card ->
                      ~ eligible "Cigarette butts" (m_x linked_card_match)
                                 (m_y linked_card_match) linked_card
                                 ["Cigarette butts"%string] c)
           /\ _find_item_count "Cigarette butts" linked_card ["Cigarette butts"%string]
              = (0, 0%Q)))
   /\ ((forall c, In c linked_card -> is_Some (candidate_count c) ->
                  400 <= x_min (box c) - m_x linked_card_match)
       -> _find_item_count "Cigarette butts" linked_card ["Cigarette butts"%string]
          = (0, 0%Q))
   /\ (forall item digits,
         count_text (of_string (text item)) digits ->
         candidate_count item = Some (int_of_digits digits)))
  /\ _find_item_count "Cigarette butts" linked_card ["Cigarette butts"%string]
     = (12, 85 # 100)
  /\ m_conf linked_card_match = 9 # 10.
Proof.
  split; [|split; vm_compute; reflexivity].
  apply (linked_count_nearest_right "Cigarette butts" linked_card
           ["Cigarette butts"%string] linked_card_match).
  - vm_compute. reflexivity.
  - vm_compute. reflexivity.
Defined.

(** C7, as the code has it.  When [_find_item_count] has its anchor and
    finds no embedded count: a candidate at [x] is blocked exactly when,
    for some schema field name other than the one under evaluation, some
    fragment holds at least 70 percent of that field's key words, has its
    x_min strictly between label.x_min + 30 and x - 30, and its y_min
    LESS THAN 15 pixels away from the label's y_min (a fragment exactly 15
    pixels off does not block).  What is returned is (0, 0.0) or the count
    and confidence of a candidate that is not blocked; when every candidate
    of the window is blocked the result is (0, 0.0), and when one of them is
    not blocked a count is returned. *)
Theorem blocking_label_strictly_within_band (item_name : string) (ocr_items : list OcrItem)
    (all_items : list string) (m : ItemMatch) :
  head (sort_matches (item_matches (key_words_of item_name) ocr_items)) = Some m ->
  embedded_count (m_text m) (key_words_of item_name) = None ->
  (forall x, blocked item_name (m_x m) (m_y m) x ocr_items all_items = true
             <-> some_label_between 15 item_name (m_x m) (m_y m) x ocr_items all_items)
  /\ (_find_item_count item_name ocr_items all_items = (0, 0%Q)
      \/ exists c n,
           In c ocr_items
           /\ candidate_count c = Some n
           /\ ~ some_label_between 15 item_name (m_x m) (m_y m) (x_min (box c))
                                   ocr_items all_items
           /\ _find_item_count item_name ocr_items all_items = (n, confidence c))
  /\ ((forall c, In c ocr_items -> is_Some (candidate_count c) ->
                 0 < x_min (box c) - m_x m < 400 ->
                 Z.abs (y_min (box c) - m_y m) < 18 ->
                 some_label_between 15 item_name (m_x m) (m_y m) (x_min (box c))
                                    ocr_items all_items)
      -> _find_item_count item_name ocr_items all_items = (0, 0%Q))
  /\ (forall c, In c ocr_items -> is_Some (candidate_count c) ->
                0 < x_min (box c) - m_x m < 400 ->
                Z.abs (y_min (box c) - m_y m) < 18 ->
                ~ some_label_between 15 item_name (m_x m) (m_y m) (x_min (box c))
                                     ocr_items all_items ->
                exists c' n,
                  In c' ocr_items /\ candidate_count c' = Some n
                  /\ _find_item_count item_name ocr_items all_items = (n, confidence c')).
Proof.
  intros Hhead Hemb.
  destruct (find_item_count_linked item_name ocr_items all_items m Hhead Hemb)
    as [_ Hcases].
  split; [intros x; apply blocked_label_between|]. split; [|split].
  - destruct Hcases as [(c & n & Hin & He & Hn & _ & Hr) | [_ Hr]]; [right | left; exact Hr].
    exists c, n. destruct He as (_ & _ & _ & Hb).
    split; [exact Hin|]. split; [exact Hn|]. split; [|exact Hr].
    rewrite <- blocked_label_between, Hb. discriminate.
  - intros Hall.
    destruct Hcases as [(c & n & Hin & He & _) | [_ Hr]]; [|exact Hr].
    destruct He as (Hc & Hdx & Hdy & Hb).
    apply (Hall c Hin Hc Hdx) in Hdy. apply blocked_label_between in Hdy. congruence.
  - intros c Hin Hc Hdx Hdy Hfree.
    destruct Hcases as [(c' & n & Hin' & _ & Hn & _ & Hr) | [Hnone _]].
    + exists c', n. auto.
    + exfalso. apply (Hnone c Hin). unfold eligible.
      split; [exact Hc|]. split; [exact Hdx|]. split; [exact Hdy|].
      destruct (blocked item_name (m_x m) (m_y m) (x_min (box c)) ocr_items all_items) eqn:Hb;
        [|reflexivity].
      apply blocked_label_between in Hb. contradiction.
Qed.

Lemma blocking_label_strictly_within_band_witness :
  (forall x,
     blocked "Paper cups" (m_x paper_cups_match) (m_y paper_cups_match) x
             straws_on_line paper_names = true
     <-> some_label_between 15 "Paper cups" (m_x paper_cups_match) (m_y paper_cups_match) x
                            straws_on_line paper_names)
  /\ (_find_item_count "Paper cups" straws_on_line paper_names = (0, 0%Q)
      \/ exists c n,
           In c straws_on_line
           /\ candidate_count c = Some n
           /\ ~ some_label_between 15 "Paper cups" (m_x paper_cups_match)
                                   (m_y paper_cups_match) (x_min (box c))
                                   straws_on_line paper_names
           /\ _find_item_count "Paper cups" straws_on_line paper_names = (n, confidence c))
  /\ ((forall c, In c straws_on_line -> is_Some (candidate_count c) ->
                 0 < x_min (box c) - m_x paper_cups_match < 400 ->
                 Z.abs (y_min (box c) - m_y paper_cups_match) < 18 ->
                 some_label_between 15 "Paper cups" (m_x paper_cups_match)
                                    (m_y paper_cups_match) (x_min (box c))
                                    straws_on_line paper_names)
      -> _find_item_count "Paper cups" straws_on_line paper_names = (0, 0%Q))
  /\ (forall c, In c straws_on_line -> is_Some (candidate_count c) ->
                0 < x_min (box c) - m_x paper_cups_match < 400 ->
                Z.abs (y_min (box c) - m_y paper_cups_match) < 18 ->
                ~ some_label_between 15 "Paper cups" (m_x paper_cups_match)
                                     (m_y paper_cups_match) (x_min (box c))
                                     straws_on_line paper_names ->
                exists c' n,
                  In c' straws_on_line /\ candidate_count c' = Some n
                  /\ _find_item_count "Paper cups" straws_on_line paper_names
                     = (n, confidence c')).
Proof.
  apply (blocking_label_strictly_within_band "Paper cups" straws_on_line paper_names
           paper_cups_match).
  - vm_compute. reflexivity.
  - vm_compute. reflexivity.
Defined.

(** The label "Paper straws" right between "Paper cups" and "=5", on the
    line of the label: the candidate is blocked and nothing is returned. *)
Lemma straws_on_the_line_block :
  blocked "Paper cups" 10 10 210 straws_on_line paper_names = true
  /\ _find_item_count "Paper cups" straws_on_line paper_names = (0, 0%Q)
  /\ (extract_field_counts (straws_between 0) paper_schema !!! "Paper items"%string)
       !! "Paper cups"%string = Some not_located.
Proof. split; [|split]; vm_compute; reflexivity. Qed.

(** C7 as worded fails at the bound.  The fragment "Paper straws" holds
    both key words of the other field, stands between the label "Paper cups"
    (x_min 10) and the candidate "=5" (x_min 210), and its y_min is 15
    pixels from the label's, hence within 15 pixels of it: the candidate is
    not blocked, and its count 5 is returned for "Paper cups". *)
Lemma blocking_within_15_pixels_counterexample :
  let item_name := "Paper cups"%string in
  let ocr_items := sorted_results (straws_between 15) in
  let all_items := all_field_names paper_schema in
  let label := mk_item "Paper cups" (9 # 10) 10 10 in
  let candidate := mk_item "=5" (8 # 10) 210 10 in
  let fragment := mk_item "Paper straws" (9 # 10) 110 25 in
  head (sort_matches (item_matches (key_words_of item_name) ocr_items))
  = Some paper_cups_match
  /\ In candidate ocr_items /\ candidate_count candidate = Some 5
  /\ In fragment ocr_items
  /\ In "Paper straws"%string all_items /\ "Paper straws"%string <> item_name
  /\ words_found (spec_key_words "Paper straws") fragment = spec_key_words "Paper straws"
  /\ length (spec_key_words "Paper straws") = 2%nat
  /\ x_min (box label) + 30 < x_min (box fragment) < x_min (box candidate) - 30
  /\ Z.abs (y_min (box fragment) - y_min (box label)) <= 15
  /\ blocked item_name (x_min (box label)) (y_min (box label)) (x_min (box candidate))
             ocr_items all_items = false
  /\ _find_item_count item_name ocr_items all_items = (5, confidence candidate)
  /\ (extract_field_counts (straws_between 15) paper_schema !!! "Paper items"%string)
       !! item_name = Some {| value := Some 5; field_confidence := Some (8 # 10)%Q |}.
Proof.
  cbv zeta.
  repeat match goal with |- _ /\ _ => split end;
    try (vm_compute; reflexivity).
  - vm_compute. auto.
  - vm_compute. auto.
  - vm_compute. auto.
  - vm_compute. intros H. discriminate H.
  - vm_compute. intros H. discriminate H.
Qed.

(** ** The count extractor *)

Lemma take_digits_digits s : Forall (fun c => is_digit c = true) (take_digits s).
Proof.
  induction s as [|c s IH]; simpl; [constructor|].
  destruct (is_digit c) eqn:E; constructor; assumption.
Qed.

Lemma match_here_digits s ds :
  match_here s = Some ds -> Forall (fun c => is_digit c = true) ds.
Proof.
  unfold match_here. destruct s as [|c s]; [discriminate|].
  destruct (Ascii.eqb c "="); [|discriminate].
  pose proof (take_digits_digits (skip_spaces s)) as H.
  destruct (take_digits (skip_spaces s)); [discriminate|].
  intros [= <-]. exact H.
Qed.

Lemma re_search_from_digits s i pos ds :
  re_search_from s i = Some (pos, ds) ->
  i <= pos /\ Forall (fun c => is_digit c = true) ds.
Proof.
  revert i. induction s as [|c s IH]; intros i; cbn [re_search_from].
  - simpl. discriminate.
  - destruct (match_here (c :: s)) as [ds'|] eqn:E.
    + intros H. inversion H; subst. split; [lia | eapply match_here_digits; exact E].
    + intros H. apply IH in H. split; [lia | tauto].
Qed.

Lemma int_of_digits_from ds acc :
  Forall (fun c => is_digit c = true) ds -> 0 <= acc ->
  0 <= fold_left (fun acc c => 10 * acc + digit_value c) ds acc.
Proof.
  revert acc. induction ds as [|c ds IH]; intros acc Hd Hacc; simpl; [exact Hacc|].
  inversion Hd as [|? ? Hc Hd']; subst. apply IH; [exact Hd'|].
  unfold is_digit in Hc. apply andb_true_iff in Hc as [Hc _]. apply Z.leb_le in Hc.
  unfold digit_value. lia.
Qed.

(** [int] of a digit run is never negative. *)
Lemma int_of_digits_nonneg ds :
  Forall (fun c => is_digit c = true) ds -> 0 <= int_of_digits ds.
Proof. intros H. apply int_of_digits_from; [exact H | lia]. Qed.

Lemma candidate_count_nonneg c n : candidate_count c = Some n -> 0 <= n.
Proof.
  unfold candidate_count, re_search.
  destruct (re_search_from _ _) as [[pos ds]|] eqn:E; [|discriminate].
  intros [= <-]. apply re_search_from_digits in E as [_ E].
  apply int_of_digits_nonneg. exact E.
Qed.

(** The embedded check, characterised. *)
Lemma embedded_count_Some item_text key_words n :
  embedded_count item_text key_words = Some n
  <-> exists pos digits,
        re_search (of_string item_text) = Some (pos, digits)
        /\ n = int_of_digits digits
        /\ last_keyword_pos (lower (of_string item_text)) key_words < pos.
Proof.
  unfold embedded_count. destruct (re_search _) as [[pos ds]|].
  - destruct (_ <? pos) eqn:E.
    + apply Z.ltb_lt in E. split.
      * intros [= <-]. eauto.
      * intros (p & d & Hs & -> & _). inversion Hs; subst. reflexivity.
    + apply Z.ltb_ge in E. split; [discriminate|].
      intros (p & d & Hs & _ & H). inversion Hs; subst. lia.
  - split; [discriminate | intros (p & d & H & _); discriminate].
Qed.

Lemma embedded_count_nonneg item_text key_words n :
  embedded_count item_text key_words = Some n -> 0 <= n.
Proof.
  rewrite embedded_count_Some. intros (pos & ds & Hs & -> & _).
  unfold re_search in Hs. apply re_search_from_digits in Hs as [_ Hs].
  apply int_of_digits_nonneg. exact Hs.
Qed.

(** ** The resolution of one field *)

(** The three ways [_find_item_count] ends: no label, a count embedded in
    the anchor, or the verdict of the linker. *)
Lemma find_item_count_cases item_name ocr_items all_items :
  let key_words := key_words_of item_name in
  let ms := item_matches key_words ocr_items in
  let r := _find_item_count item_name ocr_items all_items in
  (ms = [] /\ r = (0, 0%Q))
  \/ exists m,
       head (sort_matches ms) = Some m
       /\ ((exists n, embedded_count (m_text m) key_words = Some n /\ r = (n, m_conf m))
           \/ (embedded_count (m_text m) key_words = None
               /\ ((exists c n,
                      In c ocr_items
                      /\ eligible item_name (m_x m) (m_y m) ocr_items all_items c
                      /\ candidate_count c = Some n
                      /\ r = (n, confidence c))
                   \/ (spatial_link item_name (m_x m) (m_y m) ocr_items all_items = no_best
                       /\ r = (0, 0%Q))))).
Proof.
  intros key_words ms r. unfold r, _find_item_count. fold key_words. fold ms.
  destruct (sort_matches ms) as [|m rest] eqn:E.
  - left. split; [|reflexivity]. apply sort_stable_nil in E. exact E.
  - right. exists m. split; [reflexivity|].
    destruct (embedded_count (m_text m) key_words) as [n|].
    + left. exists n. split; reflexivity.
    + right. split; [reflexivity|].
      destruct (spatial_link_inv item_name (m_x m) (m_y m) ocr_items all_items)
        as [(Hb & Hn) | (c & n & Hin & He & Hn & Hb & Hmin)]; rewrite Hb; simpl.
      * right. split; reflexivity.
      * left. exists c, n. auto.
Qed.

(** ** The result mapping *)

Lemma fields_fold_lookup (fs : list FieldSchemaInput) (cname f : string)
    (m : gmap string string) :
  fold_left (fun m field => <[field_name field := cname]> m) fs m !! f
  = if in_dec String.string_dec f (map field_name fs) then Some cname else m !! f.
Proof.
  revert m. induction fs as [|fd fs IH]; intros m; simpl; [reflexivity|].
  rewrite IH.
  destruct (in_dec String.string_dec f (map field_name fs)) as [Hin | Hnin].
  - destruct (String.string_dec (field_name fd) f); reflexivity.
  - destruct (String.string_dec (field_name fd) f) as [-> | Hne].
    + apply lookup_insert_eq.
    + apply lookup_insert_ne. exact Hne.
Qed.

Lemma categories_fold_lookup (cs : list CategorySchemaInput) (f cn : string)
    (m : gmap string string) :
  fold_left (fun m category =>
               fold_left (fun m field => <[field_name field := category_name category]> m)
                         (fields category) m) cs m !! f = Some cn ->
  (exists c, In c cs /\ category_name c = cn /\ In f (map field_name (fields c)))
  \/ m !! f = Some cn.
Proof.
  revert m. induction cs as [|c cs IH]; intros m; simpl; [auto|].
  intros H. apply IH in H as [(c' & Hin & Hc) | H].
  - left. exists c'. split; [right; exact Hin | exact Hc].
  - rewrite fields_fold_lookup in H.
    destruct (in_dec String.string_dec f (map field_name (fields c))) as [Hin | Hnin].
    + injection H as <-. left. exists c. auto.
    + right. exact H.
Qed.

Lemma categories_fold_defined (cs : list CategorySchemaInput) (f : string)
    (m : gmap string string) :
  In f (flat_map (fun category => map field_name (fields category)) cs) \/ is_Some (m !! f) ->
  is_Some (fold_left (fun m category =>
                        fold_left (fun m field =>
                                     <[field_name field := category_name category]> m)
                                  (fields category) m) cs m !! f).
Proof.
  revert m. induction cs as [|c cs IH]; intros m; simpl.
  - intros [[] | H]; exact H.
  - intros H. apply IH. rewrite fields_fold_lookup.
    destruct (in_dec String.string_dec f (map field_name (fields c))) as [Hin | Hnin].
    + right. eauto.
    + destruct H as [H | H]; [|right; exact H].
      apply in_app_or in H as [H | H]; [contradiction | left; exact H].
Qed.

(** The subscript [field_to_category[field_name]] of line 199 is defined
    for every name of the schema, and names a category that declares it. *)
Lemma field_to_category_defined schema f :
  In f (all_field_names schema) ->
  exists cn, field_to_category schema !! f = Some cn /\ declares schema cn f.
Proof.
  intros H.
  destruct (categories_fold_defined (categories schema) f ∅ (or_introl H)) as [cn Hcn].
  exists cn. split; [exact Hcn|].
  apply categories_fold_lookup in Hcn as [Hc | Hc]; [exact Hc|].
  rewrite lookup_empty in Hc. discriminate.
Qed.

Lemma field_to_category_declares schema f cn :
  field_to_category schema !! f = Some cn -> declares schema cn f.
Proof.
  intros H. apply categories_fold_lookup in H as [Hc | Hc]; [exact Hc|].
  rewrite lookup_empty in Hc. discriminate.
Qed.

Lemma declares_names schema cn f :
  declares schema cn f -> In cn (category_names schema) /\ In f (all_field_names schema).
Proof.
  intros (c & Hin & <- & Hf). split.
  - unfold category_names. apply in_map. exact Hin.
  - unfold all_field_names. apply in_flat_map. exists c. auto.
Qed.

Lemma empty_categories_fold (cs : list CategorySchemaInput) (cn : string)
    (m : gmap string (gmap string OcrFieldResult)) :
  fold_left (fun m category => <[category_name category := ∅]> m) cs m !! cn
  = if in_dec String.string_dec cn (map category_name cs) then Some ∅ else m !! cn.
Proof.
  revert m. induction cs as [|c cs IH]; intros m; simpl; [reflexivity|].
  rewrite IH.
  destruct (in_dec String.string_dec cn (map category_name cs)) as [Hin | Hnin].
  - destruct (String.string_dec (category_name c) cn); reflexivity.
  - destruct (String.string_dec (category_name c) cn) as [-> | Hne].
    + apply lookup_insert_eq.
    + apply lookup_insert_ne. exact Hne.
Qed.

Lemma empty_categories_lookup schema cn :
  empty_categories schema !! cn
  = if in_dec String.string_dec cn (category_names schema) then Some ∅ else None.
Proof.
  unfold empty_categories. rewrite empty_categories_fold.
  unfold category_names. destruct (in_dec _ _ _); [reflexivity | apply lookup_empty].
Qed.

Lemma store_inv_init ocr_results schema :
  store_inv ocr_results schema [] (empty_categories schema).
Proof.
  split; [|split].
  - intros cn. rewrite empty_categories_lookup.
    destruct (in_dec _ _ _) as [Hin | Hnin]; split; intros H; eauto.
    + destruct H as [? H]. discriminate.
    + contradiction.
  - intros cn m f r Hm Hf. rewrite empty_categories_lookup in Hm.
    destruct (in_dec _ _ _); [|discriminate].
    injection Hm as <-. rewrite lookup_empty in Hf. discriminate.
  - intros f [].
Qed.

Lemma store_inv_step ocr_results schema done res x :
  In x (all_field_names schema) ->
  store_inv ocr_results schema done res ->
  store_inv ocr_results schema (done ++ [x])
            (store_field (sorted_results ocr_results) (all_field_names schema)
                         (field_to_category schema) res x).
Proof.
  intros Hx (Hdom & Hentry & Hdone).
  destruct (field_to_category_defined schema x Hx) as (cx & Hcx & Hdecl).
  destruct (proj2 (Hdom cx) (proj1 (declares_names _ _ _ Hdecl))) as [m0 Hm0].
  unfold store_field. cbv zeta.
  rewrite (lookup_total_correct _ _ _ Hcx), (lookup_total_correct _ _ _ Hm0).
  fold (resolve ocr_results schema x).
  split; [|split].
  - intros cn. rewrite <- Hdom. destruct (String.string_dec cx cn) as [<- | Hne].
    + rewrite lookup_insert_eq. split; eauto.
    + rewrite lookup_insert_ne by exact Hne. reflexivity.
  - intros cn m f r Hm Hf. destruct (String.string_dec cx cn) as [<- | Hne].
    + rewrite lookup_insert_eq in Hm. injection Hm as <-.
      destruct (String.string_dec x f) as [<- | Hnf].
      * rewrite lookup_insert_eq in Hf. injection Hf as <-.
        split; [apply in_or_app; right; left; reflexivity | auto].
      * rewrite lookup_insert_ne in Hf by exact Hnf.
        destruct (Hentry cx m0 f r Hm0 Hf) as (H1 & H2 & H3).
        split; [apply in_or_app; left; exact H1 | auto].
    + rewrite lookup_insert_ne in Hm by exact Hne.
      destruct (Hentry cn m f r Hm Hf) as (H1 & H2 & H3).
      split; [apply in_or_app; left; exact H1 | auto].
  - intros f Hf. destruct (String.string_dec x f) as [<- | Hnf].
    + exists cx, (<[x := resolve ocr_results schema x]> m0).
      split; [exact Hcx|]. split; apply lookup_insert_eq.
    + apply in_app_or in Hf as [Hf | [Hf | []]]; [|contradiction].
      destruct (Hdone f Hf) as (cn & m & H1 & H2 & H3).
      destruct (String.string_dec cx cn) as [<- | Hne].
      * exists cx, (<[x := resolve ocr_results schema x]> m0).
        split; [exact H1|]. split; [apply lookup_insert_eq|].
        rewrite lookup_insert_ne by exact Hnf. congruence.
      * exists cn, m. split; [exact H1|]. split; [|exact H3].
        rewrite lookup_insert_ne by exact Hne. exact H2.
Qed.

Lemma store_inv_fold ocr_results schema done :
  incl done (all_field_names schema) ->
  store_inv ocr_results schema done
            (fold_left (store_field (sorted_results ocr_results) (all_field_names schema)
                                    (field_to_category schema))
                       done (empty_categories schema)).
Proof.
  induction done as [|x done IH] using rev_ind; intros Hincl.
  - apply store_inv_init.
  - rewrite fold_left_app. simpl. apply store_inv_step.
    + apply Hincl. apply in_or_app. right. left. reflexivity.
    + apply IH. intros f Hf. apply Hincl. apply in_or_app. left. exact Hf.
Qed.

(** The result of [extract_field_counts], characterised. *)
Lemma extract_field_counts_inv ocr_results schema :
  store_inv ocr_results schema (all_field_names schema)
            (extract_field_counts ocr_results schema).
Proof. apply store_inv_fold. apply incl_refl. Qed.

(** Every entry of the result is the resolution of a declared field name,
    under a category that declares it. *)
Lemma extract_field_counts_entry ocr_results schema cn m f r :
  extract_field_counts ocr_results schema !! cn = Some m -> m !! f = Some r ->
  declares schema cn f /\ r = resolve ocr_results schema f.
Proof.
  intros Hm Hf.
  destruct (extract_field_counts_inv ocr_results schema) as (_ & Hentry & _).
  destruct (Hentry cn m f r Hm Hf) as (_ & H2 & H3).
  split; [apply field_to_category_declares; exact H2 | exact H3].
Qed.

(** Every declared field name has its entry, under the category the
    lookup table gives it. *)
Lemma extract_field_counts_declared ocr_results schema f :
  In f (all_field_names schema) ->
  exists cn m, field_to_category schema !! f = Some cn
               /\ declares schema cn f
               /\ extract_field_counts ocr_results schema !! cn = Some m
               /\ m !! f = Some (resolve ocr_results schema f).
Proof.
  intros Hf.
  destruct (extract_field_counts_inv ocr_results schema) as (_ & _ & Hdone).
  destruct (Hdone f Hf) as (cn & m & H1 & H2 & H3).
  exists cn, m. split; [exact H1|]. split; [|auto].
  apply field_to_category_declares. exact H1.
Qed.

Lemma find_item_count_nonneg item_name ocr_items all_items :
  0 <= fst (_find_item_count item_name ocr_items all_items).
Proof.
  destruct (find_item_count_cases item_name ocr_items all_items)
    as [(_ & ->) | (m & _ & [(n & Hn & ->) | (_ & [(c & n & _ & _ & Hn & ->) | (_ & ->)])])];
    simpl; try lia.
  - eapply embedded_count_nonneg. exact Hn.
  - eapply candidate_count_nonneg. exact Hn.
Qed.

Lemma field_result_shape found :
  (value (field_result found) = None <-> field_confidence (field_result found) = None)
  /\ (forall v, value (field_result found) = Some v -> v = fst found).
Proof.
  destruct found as [count conf]. unfold field_result.
  destruct (_ || _); simpl; split; try split; try discriminate; try reflexivity.
  intros v [= <-]. reflexivity.
Qed.

Lemma resolve_empty schema f : resolve [] schema f = not_located.
Proof. reflexivity. Qed.

(** ** The result mapping (claims C2, C3 and C4) *)

(** C3 at a schema that declares one field name in two categories.  On
    an empty fragment list every entry that the result holds is
    (None, None), and where no field name is declared under two category
    names every declared field has such an entry under its category.  At
    the schema in which "Plastic" and "Paper" both declare "Other pieces"
    the field declared by "Plastic" has no entry at all: the mapping of
    "Plastic" is empty, so not every schema-declared field is resolved to
    (None, None). *)
Theorem empty_fragments_shared_name_unresolved :
  declares shared_name_schema "Plastic" "Other pieces"
  /\ extract_field_counts [] shared_name_schema !! "Plastic" = Some ∅
  /\ ~ all_declared_not_located shared_name_schema
  /\ (forall schema,
        (forall f c1 c2, declares schema c1 f -> declares schema c2 f -> c1 = c2) ->
        all_declared_not_located schema)
  /\ (forall schema cn m f r,
        extract_field_counts [] schema !! cn = Some m -> m !! f = Some r ->
        r = not_located).
Proof.
  assert (declares shared_name_schema "Plastic" "Other pieces") as Hd.
  { exists plastic_category. split; [left; reflexivity|].
    split; [reflexivity | left; reflexivity]. }
  assert (extract_field_counts [] shared_name_schema !! "Plastic" = Some ∅) as He
    by (vm_compute; reflexivity).
  split; [exact Hd|]. split; [exact He|]. split; [|split].
  - intros Hall. destruct (Hall _ _ Hd) as (m & Hm & Hf).
    rewrite He in Hm. injection Hm as <-. rewrite lookup_empty in Hf. discriminate Hf.
  - intros schema Huniq cn f Hdecl.
    destruct (extract_field_counts_declared [] schema f
                (proj2 (declares_names _ _ _ Hdecl))) as (cn' & m & _ & Hd' & Hm & Hf).
    rewrite (Huniq f cn cn' Hdecl Hd'). rewrite resolve_empty in Hf. eauto.
  - intros schema cn m f r Hm Hf.
    destruct (extract_field_counts_entry [] schema cn m f r Hm Hf) as [_ ->].
    apply resolve_empty.
Qed.

(** C4.  In every entry of the result of [extract_field_counts] the value
    is None exactly when the confidence is None, and a value that is
    present is a non-negative integer. *)
Theorem field_result_invariant (ocr_results : list OcrItem) (schema : FormSchemaOutput)
    (cn f : string) (m : gmap string OcrFieldResult) (r : OcrFieldResult) :
  extract_field_counts ocr_results schema !! cn = Some m ->
  m !! f = Some r ->
  (value r = None <-> field_confidence r = None)
  /\ (forall v, value r = Some v -> 0 <= v).
Proof.
  intros Hm Hf.
  destruct (extract_field_counts_entry ocr_results schema cn m f r Hm Hf) as [_ ->].
  unfold resolve.
  destruct (field_result_shape
              (_find_item_count f (sorted_results ocr_results) (all_field_names schema)))
    as [H1 H2].
  split; [exact H1|]. intros v Hv. rewrite (H2 v Hv). apply find_item_count_nonneg.
Qed.

Lemma field_result_invariant_witness :
  (value {| value := Some 8; field_confidence := Some (92 # 100)%Q |} = None
   <-> field_confidence {| value := Some 8; field_confidence := Some (92 # 100)%Q |} = None)
  /\ (forall v, value {| value := Some 8; field_confidence := Some (92 # 100)%Q |} = Some v
                -> 0 <= v).
Proof.
  apply (field_result_invariant
           [mk_item "Plastic bottles =8" (92 # 100) 10 10]
           (one_field "Plastic" "Plastic bottles")
           "Plastic" "Plastic bottles"
           {[ "Plastic bottles"%string
              := {| value := Some 8; field_confidence := Some (92 # 100)%Q |} ]});
    vm_compute; reflexivity.
Defined.

(** C2 at a schema that declares one field name in two categories: the
    name is stored under the later category only, and the mapping of the
    earlier category, which declares it too, stays empty. *)
Theorem shared_field_name_missing :
  let schema :=
    {| categories :=
         [ {| category_name := "Plastic"; fields := [ {| field_name := "Other pieces" |} ] |};
           {| category_name := "Paper"; fields := [ {| field_name := "Other pieces" |} ] |} ];
       updated_at := "2025-10-22T00:00:00Z" |} in
  declares schema "Plastic" "Other pieces"
  /\ extract_field_counts [] schema !! "Plastic" = Some ∅
  /\ extract_field_counts [] schema !! "Paper"
     = Some {[ "Other pieces"%string := not_located ]}.
Proof.
  cbv zeta. split; [|split; vm_compute; reflexivity].
  eexists. split; [left; reflexivity|]. split; [reflexivity | left; reflexivity].
Qed.

(** Where no field name is declared under two category names, C2 holds:
    every category of the schema is a key of the result, its mapping holds
    every field it declares, and no entry is stored for a name the category
    does not declare. *)
Lemma extract_field_counts_exact (ocr_results : list OcrItem) (schema : FormSchemaOutput) :
  (forall f c1 c2, declares schema c1 f -> declares schema c2 f -> c1 = c2) ->
  (forall cn, is_Some (extract_field_counts ocr_results schema !! cn)
              <-> In cn (category_names schema))
  /\ (forall cn f, declares schema cn f ->
        exists m, extract_field_counts ocr_results schema !! cn = Some m
                  /\ m !! f = Some (resolve ocr_results schema f))
  /\ (forall cn m f r, extract_field_counts ocr_results schema !! cn = Some m ->
        m !! f = Some r -> declares schema cn f).
Proof.
  intros Huniq.
  destruct (extract_field_counts_inv ocr_results schema) as (Hdom & _ & _).
  split; [exact Hdom|]. split.
  - intros cn f Hd.
    destruct (extract_field_counts_declared ocr_results schema f
                (proj2 (declares_names _ _ _ Hd))) as (cn' & m & _ & Hd' & Hm & Hf).
    rewrite (Huniq f cn cn' Hd Hd'). eauto.
  - intros cn m f r Hm Hf.
    apply (extract_field_counts_entry ocr_results schema cn m f r Hm Hf).
Qed.

(** ** Label found, count not found (claim C1) *)

Lemma field_result_zero : field_result (0, 0%Q) = not_located.
Proof. reflexivity. Qed.

(** C1, as the code has it.  For a field of the schema whose anchor is
    found while neither the embedded check nor the spatial linker yields a
    count, [_find_item_count] returns (0, 0.0) and the result records
    (None, None) for the field; a field for which no fragment reaches the
    threshold gets the same record, so the two outcomes are not told apart
    in the result. *)
Theorem label_without_count_not_located (ocr_results : list OcrItem)
    (schema : FormSchemaOutput) (f : string) (m : ItemMatch) :
  In f (all_field_names schema) ->
  head (sort_matches (item_matches (key_words_of f) (sorted_results ocr_results))) = Some m ->
  embedded_count (m_text m) (key_words_of f) = None ->
  best_count (spatial_link f (m_x m) (m_y m) (sorted_results ocr_results)
                           (all_field_names schema)) = None ->
  _find_item_count f (sorted_results ocr_results) (all_field_names schema) = (0, 0%Q)
  /\ (exists cn fields,
        field_to_category schema !! f = Some cn
        /\ extract_field_counts ocr_results schema !! cn = Some fields
        /\ fields !! f = Some not_located)
  /\ (forall other,
        item_matches (key_words_of f) (sorted_results other) = [] ->
        exists cn fields,
          field_to_category schema !! f = Some cn
          /\ extract_field_counts other schema !! cn = Some fields
          /\ fields !! f = Some not_located).
Proof.
  intros Hf Hhead Hemb Hbest.
  assert (_find_item_count f (sorted_results ocr_results) (all_field_names schema) = (0, 0%Q))
    as Hzero.
  { unfold _find_item_count.
    destruct (sort_matches _) as [|m' rest]; [reflexivity|].
    simpl in Hhead. injection Hhead as ->. rewrite Hemb, Hbest. reflexivity. }
  split; [exact Hzero|]. split.
  - destruct (extract_field_counts_declared ocr_results schema f Hf)
      as (cn & fields & H1 & _ & H2 & H3).
    exists cn, fields. unfold resolve in H3. rewrite Hzero, field_result_zero in H3. auto.
  - intros other Hnone.
    destruct (extract_field_counts_declared other schema f Hf)
      as (cn & fields & H1 & _ & H2 & H3).
    exists cn, fields. unfold resolve, _find_item_count in H3.
    rewrite Hnone in H3. simpl in H3. auto.
Qed.

Lemma label_without_count_not_located_witness :
  _find_item_count "Cigarette butts" (sorted_results label_only)
                   (all_field_names (one_field "Plastic" "Cigarette butts")) = (0, 0%Q)
  /\ (exists cn fields,
        field_to_category (one_field "Plastic" "Cigarette butts") !! "Cigarette butts"
        = Some cn
        /\ extract_field_counts label_only (one_field "Plastic" "Cigarette butts") !! cn
           = Some fields
        /\ fields !! "Cigarette butts" = Some not_located)
  /\ (forall other,
        item_matches (key_words_of "Cigarette butts") (sorted_results other) = [] ->
        exists cn fields,
          field_to_category (one_field "Plastic" "Cigarette butts") !! "Cigarette butts"
          = Some cn
          /\ extract_field_counts other (one_field "Plastic" "Cigarette butts") !! cn
             = Some fields
          /\ fields !! "Cigarette butts" = Some not_located).
Proof.
  apply (label_without_count_not_located label_only
           (one_field "Plastic" "Cigarette butts") "Cigarette butts" label_only_match).
  - left. reflexivity.
  - vm_compute. reflexivity.
  - vm_compute. reflexivity.
  - vm_compute. reflexivity.
Defined.

(** C1 as worded fails: with the label of "Cigarette butts" read and no
    count on the card, the result records (None, None) and not (0, 0.0),
    the record it also holds when no fragment is read at all. *)
Lemma sentinel_recorded_counterexample :
  head (sort_matches (item_matches (key_words_of "Cigarette butts")
                                   (sorted_results label_only)))
  = Some label_only_match
  /\ embedded_count (m_text label_only_match) (key_words_of "Cigarette butts") = None
  /\ spatial_link "Cigarette butts" 10 10 (sorted_results label_only) ["Cigarette butts"%string]
     = no_best
  /\ extract_field_counts label_only (one_field "Plastic" "Cigarette butts") !! "Plastic"
     = Some {[ "Cigarette butts"%string := not_located ]}
  /\ not_located <> {| value := Some 0; field_confidence := Some 0%Q |}
  /\ extract_field_counts [] (one_field "Plastic" "Cigarette butts") !! "Plastic"
     = extract_field_counts label_only (one_field "Plastic" "Cigarette butts") !! "Plastic".
Proof.
  repeat split; try (vm_compute; reflexivity).
  discriminate.
Qed.

(** ** The embedded count (claim C5) *)

Lemma last_keyword_pos_lt t ws pos :
  last_keyword_pos t ws < pos <-> -1 < pos /\ Forall (fun w => rfind w t < pos) ws.
Proof.
  unfold last_keyword_pos. generalize (-1). induction ws as [|w ws IH]; intros start; simpl.
  - split; [intros H; split; [exact H | constructor] | tauto].
  - rewrite IH. destruct (start <? rfind w t) eqn:E;
      [apply Z.ltb_lt in E | apply Z.ltb_ge in E].
    + split.
      * intros [H1 H2]. split; [lia | constructor; assumption].
      * intros [H1 H2]. inversion H2; subst. tauto.
    + split.
      * intros [H1 H2]. split; [exact H1 | constructor; [lia | exact H2]].
      * intros [H1 H2]. inversion H2; subst. tauto.
Qed.

(** C5, as the code has it.  A count embedded in the anchor's own text is
    accepted only if the pattern starts strictly after the rightmost
    occurrence, in the lower-cased text, of every key word in full; when it
    is accepted the field resolves to the parsed number with the anchor
    fragment's own confidence, whatever the other fragments and the other
    field names are. *)
Theorem embedded_count_after_key_words (item_name : string) (ocr_items : list OcrItem)
    (all_items : list string) (m : ItemMatch) (n : Z) :
  head (sort_matches (item_matches (key_words_of item_name) ocr_items)) = Some m ->
  embedded_count (m_text m) (key_words_of item_name) = Some n ->
  (exists pos digits,
     re_search (of_string (m_text m)) = Some (pos, digits)
     /\ n = int_of_digits digits
     /\ Forall (fun word => rfind word (lower (of_string (m_text m))) < pos)
               (key_words_of item_name))
  /\ _find_item_count item_name ocr_items all_items = (n, m_conf m)
  /\ (exists item, In item ocr_items /\ text item = m_text m /\ confidence item = m_conf m).
Proof.
  intros Hhead Hemb. split; [|split].
  - apply embedded_count_Some in Hemb as (pos & ds & Hs & Hn & Hlt).
    exists pos, ds. split; [exact Hs|]. split; [exact Hn|].
    apply last_keyword_pos_lt in Hlt. tauto.
  - unfold _find_item_count.
    destruct (sort_matches _) as [|m' rest]; [discriminate|].
    simpl in Hhead. injection Hhead as ->. rewrite Hemb. reflexivity.
  - apply sort_matches_In in Hhead. apply item_matches_In in Hhead as (item & Hin & _ & ->).
    exists item. auto.
Qed.

Lemma embedded_count_after_key_words_witness :
  (exists pos digits,
     re_search (of_string (m_text label_with_count_match)) = Some (pos, digits)
     /\ 8 = int_of_digits digits
     /\ Forall (fun word => rfind word (lower (of_string (m_text label_with_count_match))) < pos)
               (key_words_of "Plastic bottles"))
  /\ _find_item_count "Plastic bottles" label_with_count ["Plastic bottles"%string]
     = (8, m_conf label_with_count_match)
  /\ (exists item, In item label_with_count
                   /\ text item = m_text label_with_count_match
                   /\ confidence item = m_conf label_with_count_match).
Proof.
  apply (embedded_count_after_key_words "Plastic bottles" label_with_count
           ["Plastic bottles"%string] label_with_count_match 8).
  - vm_compute. reflexivity.
  - vm_compute. reflexivity.
Defined.

(** C5 as worded fails: in "Plastic bottles =8 bott" the pattern starts at
    16, after both key words in full, and the count is accepted, although
    the prefix "bott" of the key word "bottles" occurs again at 19. *)
Lemma embedded_count_prefix_counterexample :
  re_search (of_string "Plastic bottles =8 bott") = Some (16, of_string "8")
  /\ spec_last_label_pos (lower (of_string "Plastic bottles =8 bott"))
                         (key_words_of "Plastic bottles") = 19
  /\ ~ (spec_last_label_pos (lower (of_string "Plastic bottles =8 bott"))
                            (key_words_of "Plastic bottles") < 16)
  /\ embedded_count "Plastic bottles =8 bott" (key_words_of "Plastic bottles") = Some 8
  /\ _find_item_count "Plastic bottles" [mk_item "Plastic bottles =8 bott" (92 # 100) 10 10]
                      ["Plastic bottles"%string]
     = (8, (92 # 100)%Q).
Proof.
  split; [|split; [|split; [|split]]]; try (vm_compute; reflexivity).
  vm_compute. intros H. discriminate H.
Qed.

(** ** The public entry point (claim C10) *)

Section PublicAPIFacts.

Context {Image : Type}.

(** The [try] of [process_image] catches what [process_image_to_form_result]
    raises. *)
Lemma process_image_with_instance (construct : outcome (@DataCardOCR Image))
    (st st' : option DataCardOCR) (ocr : DataCardOCR) (image : string)
    (schema : FormSchemaOutput) :
  get_ocr_instance construct st = (Returns ocr, st') ->
  process_image construct st image schema
  = (match process_image_to_form_result ocr (inr image) schema with
     | Returns result => Returns result
     | Raises _ => Returns {| result_categories := ∅ |}
     end, st').
Proof. unfold process_image. intros ->. reflexivity. Qed.

(** Without an instance the exception of the constructor leaves
    [process_image]. *)
Lemma process_image_without_instance (e : string) (image : string)
    (schema : FormSchemaOutput) :
  process_image (Image := Image) (Raises e) None image schema = (Raises e, None).
Proof. reflexivity. Qed.

(** Extraction itself raises nothing: a call fails only in the decoder or
    in the OCR run. *)
Lemma process_image_to_form_result_raises (ocr : @DataCardOCR Image) (image : string)
    (schema : FormSchemaOutput) (e : string) :
  process_image_to_form_result ocr (inr image) schema = Raises e
  <-> decode_base64_image ocr image = Raises e
      \/ exists img, decode_base64_image ocr image = Returns img
                     /\ process_image_ocr ocr img = Raises e.
Proof.
  unfold process_image_to_form_result, bind.
  destruct (decode_base64_image ocr image) as [img | e'].
  - destruct (process_image_ocr ocr img) as [frs | e''] eqn:E.
    + split; [discriminate|]. intros [H | (img' & H1 & H2)]; [discriminate|].
      injection H1 as <-. congruence.
    + split.
      * intros [= ->]. right. exists img. auto.
      * intros [H | (img' & H1 & H2)]; [discriminate|].
        injection H1 as <-. congruence.
  - split.
    + intros [= ->]. left. reflexivity.
    + intros [H | (img' & H1 & _)]; [injection H as ->; reflexivity | discriminate].
Qed.

End PublicAPIFacts.

(** C10, as the code has it.  Once the engine instance is at hand (cached,
    or constructed without an exception), [process_image] raises nothing
    for any image string and schema: it returns a form result, the one of
    [process_image_to_form_result] when that returns, and one with an empty
    categories mapping, holding no category and no field, when decoding or
    the OCR run raises. *)
Theorem process_image_never_raises_with_instance {Image : Type}
    (construct : outcome (@DataCardOCR Image)) (st st' : option DataCardOCR)
    (ocr : DataCardOCR) (image : string) (schema : FormSchemaOutput) :
  get_ocr_instance construct st = (Returns ocr, st') ->
  exists result,
    process_image construct st image schema = (Returns result, st')
    /\ (forall e, process_image_to_form_result ocr (inr image) schema = Raises e ->
                  result_categories result = ∅
                  /\ forall cn, result_categories result !! cn = None)
    /\ (forall r, process_image_to_form_result ocr (inr image) schema = Returns r ->
                  result = r).
Proof.
  intros Hinst. rewrite (process_image_with_instance _ _ _ _ _ _ Hinst).
  destruct (process_image_to_form_result ocr (inr image) schema) as [r | e].
  - exists r. split; [reflexivity|]. split; [discriminate|].
    intros r' [= <-]. reflexivity.
  - eexists. split; [reflexivity|]. split; [|discriminate].
    intros _ _. simpl. split; [reflexivity|]. intros cn. apply lookup_empty.
Qed.

Lemma process_image_never_raises_with_instance_witness :
  exists result,
    process_image (Returns rejecting_engine) None "aGVsbG8=" (one_field "Metal" "cans")
    = (Returns result, Some rejecting_engine)
    /\ (forall e,
          process_image_to_form_result rejecting_engine (inr "aGVsbG8="%string)
                                       (one_field "Metal" "cans") = Raises e ->
          result_categories result = ∅
          /\ forall cn, result_categories result !! cn = None)
    /\ (forall r,
          process_image_to_form_result rejecting_engine (inr "aGVsbG8="%string)
                                       (one_field "Metal" "cans") = Returns r ->
          result = r).
Proof.
  apply (process_image_never_raises_with_instance
           (Returns rejecting_engine) None (Some rejecting_engine) rejecting_engine
           "aGVsbG8=" (one_field "Metal" "cans")).
  reflexivity.
Defined.

(** C10 as worded fails: the instance is fetched before the [try], so
    when no instance is cached and the constructor raises, [process_image]
    raises as well. *)
Lemma process_image_raises_counterexample :
  process_image (Image := unit) (Raises "model files not found") None "aGVsbG8="
                (one_field "Metal" "cans")
  = (Raises "model files not found", None).
Proof. reflexivity. Qed.

(** * Further properties of backend/app/ocr.py *)

(** ** The label threshold *)

Lemma matched_positions_length t ws :
  Z.of_nat (length (matched_positions t ws)) = hits t ws.
Proof.
  unfold matched_positions, hits. f_equal.
  induction ws as [|w ws IH]; simpl; [reflexivity|].
  rewrite word_hits_pos. destruct (0 <=? word_pos t w); simpl; rewrite IH; reflexivity.
Qed.

Lemma ratio_half c ws :
  Qle_bool (1 # 2) (ratio c ws) = true <-> ws <> [] /\ Z.of_nat (length ws) <= 2 * c.
Proof.
  rewrite Qle_bool_iff. destruct ws as [|w ws].
  - simpl. unfold Qle; simpl. split; [lia | intros [H _]; congruence].
  - rewrite ratio_cons. unfold Qle; cbn [Qnum Qden length].
    split; [intros H; split; [discriminate | lia] | intros [_ H]; lia].
Qed.

(** A fragment is kept as a label match (line 283) exactly when some key
    word hits it and either the matched key words stand in schema order or
    at least half of the key words hit.  So one hit is enough whenever it
    is in order, and a single hit always is: a fragment that hits exactly
    one key word of a field is a label match for it, however many key words
    the field has. *)
Theorem label_match_criterion (text_lower : str) (key_words : list str) :
  (Qle_bool (1 # 2) (match_quality text_lower key_words) = true
   <-> 0 < hits text_lower key_words
       /\ (strictly_increasing (matched_positions text_lower key_words) = true
           \/ Z.of_nat (length key_words) <= 2 * hits text_lower key_words))
  /\ (hits text_lower key_words = 1 ->
      Qle_bool (1 # 2) (match_quality text_lower key_words) = true).
Proof.
  assert (Qle_bool (1 # 2) (match_quality text_lower key_words) = true
          <-> 0 < hits text_lower key_words
              /\ (strictly_increasing (matched_positions text_lower key_words) = true
                  \/ Z.of_nat (length key_words) <= 2 * hits text_lower key_words)) as Hiff.
  { rewrite match_quality_unfold.
    pose proof (hits_range text_lower key_words) as Hr.
    destruct (strictly_increasing (matched_positions text_lower key_words)) eqn:Hinc;
      destruct (0 <? hits text_lower key_words) eqn:Hpos; simpl;
      [apply Z.ltb_lt in Hpos | apply Z.ltb_ge in Hpos
       | apply Z.ltb_lt in Hpos | apply Z.ltb_ge in Hpos].
    - split; [intros _; split; [exact Hpos | left; reflexivity]|].
      intros _. apply Qle_bool_iff.
      destruct (ratio_range _ _ Hr) as [H0 _].
      rewrite <- (Qplus_0_l (1 # 2)) at 1.
      apply Qplus_le_compat; [exact H0 | apply Qle_refl].
    - rewrite ratio_half. split; [|intros [H _]; lia].
      intros [Hne H]. exfalso. destruct key_words; [congruence | simpl in H; lia].
    - rewrite ratio_half. split.
      + intros [_ H]. split; [exact Hpos | right; exact H].
      + intros [_ [H | H]]; [discriminate|].
        split; [|exact H]. intros ->. simpl in Hr. lia.
    - rewrite ratio_half. split; [|intros [H _]; lia].
      intros [Hne H]. exfalso. destruct key_words; [congruence | simpl in H; lia]. }
  split; [exact Hiff|].
  intros H1. apply Hiff. split; [lia|]. left.
  pose proof (matched_positions_length text_lower key_words) as Hlen.
  rewrite H1 in Hlen.
  destruct (matched_positions text_lower key_words) as [|p [|q l]]; simpl in Hlen;
    try reflexivity; lia.
Qed.

(** ** What the linker can never do *)

Lemma blocked_needs_room item_name item_x item_y x ocr_items all_items :
  blocked item_name item_x item_y x ocr_items all_items = true -> 62 <= x - item_x.
Proof.
  rewrite blocked_iff. intros (other & chk & _ & _ & _ & Hi).
  destruct Hi as (_ & _ & Hx & _). lia.
Qed.

(** The blocking rule needs room for a label between the two 30-pixel
    margins (line 356): a candidate less than 62 pixels to the right of the
    label is never blocked, whatever the other fragments and field names
    are, and when such a candidate lies on the label's line the linker
    returns a count from at most that distance. *)
Theorem near_candidate_never_blocked (item_name : string) (item_x item_y : Z)
    (ocr_items : list OcrItem) (all_items : list string) (c : OcrItem) :
  x_min (box c) - item_x < 62 ->
  blocked item_name item_x item_y (x_min (box c)) ocr_items all_items = false
  /\ (In c ocr_items -> is_Some (candidate_count c) ->
      0 < x_min (box c) - item_x -> Z.abs (y_min (box c) - item_y) < 18 ->
      exists count conf d,
        spatial_link item_name item_x item_y ocr_items all_items
        = {| best_count := Some count; best_confidence := Some conf; best_distance := Some d |}
        /\ d <= x_min (box c) - item_x).
Proof.
  intros Hnear.
  assert (blocked item_name item_x item_y (x_min (box c)) ocr_items all_items = false) as Hb.
  { destruct (blocked _ _ _ _ _ _) eqn:E; [|reflexivity].
    apply blocked_needs_room in E. lia. }
  split; [exact Hb|]. intros Hin Hc Hdx Hdy.
  assert (eligible item_name item_x item_y ocr_items all_items c) as He.
  { split; [exact Hc|]. split; [lia|]. split; [exact Hdy | exact Hb]. }
  destruct (spatial_link_inv item_name item_x item_y ocr_items all_items)
    as [(_ & Hnone) | (c0 & n0 & _ & _ & _ & -> & Hmin)].
  - exfalso. exact (Hnone c Hin He).
  - exists n0, (confidence c0), (dx_of item_x c0). split; [reflexivity|].
    exact (Hmin c Hin He).
Qed.

Lemma near_candidate_never_blocked_witness :
  blocked "Paper cups" 10 10 (x_min (box (mk_item "=5" (8 # 10) 60 10)))
          [mk_item "Paper cups" (9 # 10) 10 10; mk_item "Paper straws" (9 # 10) 45 10;
           mk_item "=5" (8 # 10) 60 10]
          ["Paper cups"; "Paper straws"] = false
  /\ (In (mk_item "=5" (8 # 10) 60 10)
         [mk_item "Paper cups" (9 # 10) 10 10; mk_item "Paper straws" (9 # 10) 45 10;
          mk_item "=5" (8 # 10) 60 10] ->
      is_Some (candidate_count (mk_item "=5" (8 # 10) 60 10)) ->
      0 < x_min (box (mk_item "=5" (8 # 10) 60 10)) - 10 ->
      Z.abs (y_min (box (mk_item "=5" (8 # 10) 60 10)) - 10) < 18 ->
      exists count conf d,
        spatial_link "Paper cups" 10 10
          [mk_item "Paper cups" (9 # 10) 10 10; mk_item "Paper straws" (9 # 10) 45 10;
           mk_item "=5" (8 # 10) 60 10]
          ["Paper cups"; "Paper straws"]
        = {| best_count := Some count; best_confidence := Some conf; best_distance := Some d |}
        /\ d <= x_min (box (mk_item "=5" (8 # 10) 60 10)) - 10).
Proof.
  apply (near_candidate_never_blocked "Paper cups" 10 10
           [mk_item "Paper cups" (9 # 10) 10 10; mk_item "Paper straws" (9 # 10) 45 10;
            mk_item "=5" (8 # 10) 60 10]
           ["Paper cups"; "Paper straws"] (mk_item "=5" (8 # 10) 60 10)).
  vm_compute. reflexivity.
Defined.

(** The window of line 334 asks for dx > 0: the linker takes no count
    from a fragment whose left edge is at or left of the label's, so never
    from the label fragment itself.  A card read as one single fragment
    therefore yields a count only through the embedded check. *)
Theorem linker_only_looks_right (item_name : string) (ocr_items : list OcrItem)
    (all_items : list string) :
  (forall item_x item_y,
     (forall c, In c ocr_items -> x_min (box c) <= item_x) ->
     spatial_link item_name item_x item_y ocr_items all_items = no_best)
  /\ (forall item,
        _find_item_count item_name [item] all_items = (0, 0%Q)
        \/ exists n, embedded_count (text item) (key_words_of item_name) = Some n
                     /\ _find_item_count item_name [item] all_items = (n, confidence item)).
Proof.
  assert (forall items item_x item_y,
            (forall c, In c items -> x_min (box c) <= item_x) ->
            spatial_link item_name item_x item_y items all_items = no_best) as Hleft.
  { intros items item_x item_y Hall.
    destruct (spatial_link_inv item_name item_x item_y items all_items)
      as [(Hb & _) | (c & n & Hin & He & _)]; [exact Hb|].
    destruct He as (_ & Hdx & _). specialize (Hall c Hin). lia. }
  split; [apply Hleft|].
  intros item.
  destruct (find_item_count_cases item_name [item] all_items)
    as [(_ & Hr) | (m & Hhead & [(n & Hn & Hr) | (_ & [(c & n & Hin & He & _) | (_ & Hr)])])].
  - left. exact Hr.
  - right. exists n.
    apply sort_matches_In in Hhead. apply item_matches_In in Hhead as (it & Hit & _ & ->).
    destruct Hit as [<- | []]. simpl in Hn, Hr. auto.
  - exfalso. apply sort_matches_In in Hhead.
    apply item_matches_In in Hhead as (it & Hit & _ & ->).
    destruct Hit as [<- | []]. destruct Hin as [<- | []].
    destruct He as (_ & Hdx & _). simpl in Hdx. lia.
  - left. exact Hr.
Qed.

(** ** What the result holds *)

Lemma resolve_located ocr_results schema f v :
  value (resolve ocr_results schema f) = Some v ->
  exists item,
    In item ocr_results
    /\ candidate_count item = Some v
    /\ field_confidence (resolve ocr_results schema f) = Some (confidence item)
    /\ (0 < v \/ (0 < confidence item)%Q).
Proof.
  unfold resolve.
  set (items := sorted_results ocr_results). set (names := all_field_names schema).
  assert (forall item, In item items -> In item ocr_results) as Hperm.
  { intros item. apply Permutation_in. apply sort_stable_perm. }
  assert (forall n conf, value (field_result (n, conf)) = Some v ->
            n = v /\ field_confidence (field_result (n, conf)) = Some conf
            /\ (0 < v \/ (0 < conf)%Q)) as Hshape.
  { intros n conf. unfold field_result.
    destruct (0 <? n) eqn:En; simpl.
    - intros [= <-]. apply Z.ltb_lt in En. auto.
    - destruct (Qlt_bool 0 conf) eqn:Ec; simpl; [|discriminate].
      intros [= <-]. apply Qlt_bool_iff in Ec. auto. }
  destruct (find_item_count_cases f items names)
    as [(_ & ->) | (m & Hhead & [(n & Hn & ->) | (_ & [(c & n & Hin & _ & Hn & ->) | (_ & ->)])])].
  - discriminate.
  - intros Hv. destruct (Hshape _ _ Hv) as (-> & Hconf & Hpos).
    apply sort_matches_In in Hhead. apply item_matches_In in Hhead as (item & Hin & _ & ->).
    simpl in *. exists item. split; [apply Hperm; exact Hin|].
    split; [|split; assumption].
    apply embedded_count_Some in Hn as (pos & ds & Hs & -> & _).
    unfold candidate_count. rewrite Hs. reflexivity.
  - intros Hv. destruct (Hshape _ _ Hv) as (-> & Hconf & Hpos).
    exists c. split; [apply Hperm; exact Hin|]. auto.
  - discriminate.
Qed.

(** Every value in the result is read off one fragment of the input: a
    stored value is the number that fragment carries after its first "=",
    stored with that same fragment's confidence, and it is positive or has
    a positive confidence (a zero read with confidence 0.0 is stored as not
    located).  A card on which no fragment carries the pattern yields no
    value at all. *)
Theorem stored_value_from_fragment (ocr_results : list OcrItem) (schema : FormSchemaOutput) :
  (forall cn m f r v,
     extract_field_counts ocr_results schema !! cn = Some m -> m !! f = Some r ->
     value r = Some v ->
     exists item,
       In item ocr_results
       /\ candidate_count item = Some v
       /\ field_confidence r = Some (confidence item)
       /\ (0 < v \/ (0 < confidence item)%Q))
  /\ ((forall item, In item ocr_results -> candidate_count item = None) ->
      forall cn m f r,
        extract_field_counts ocr_results schema !! cn = Some m -> m !! f = Some r ->
        r = not_located).
Proof.
  split.
  - intros cn m f r v Hm Hf Hv.
    destruct (extract_field_counts_entry ocr_results schema cn m f r Hm Hf) as [_ ->].
    apply resolve_located. exact Hv.
  - intros Hnone cn m f r Hm Hf.
    destruct (extract_field_counts_entry ocr_results schema cn m f r Hm Hf) as [_ ->].
    destruct (value (resolve ocr_results schema f)) as [v|] eqn:Hv.
    + apply resolve_located in Hv as (item & Hin & Hc & _).
      rewrite (Hnone item Hin) in Hc. discriminate.
    + unfold resolve in *. destruct (_find_item_count _ _ _) as [n conf].
      unfold field_result in *. destruct (_ || _); [discriminate | reflexivity].
Qed.

(** The keys of the result are the category names of the schema, each
    once, whatever the fragments are; a category that declares no field is
    a key too, with an empty mapping (lines 187-189). *)
Theorem result_keys_are_categories (ocr_results : list OcrItem) (schema : FormSchemaOutput) :
  (forall cn, is_Some (extract_field_counts ocr_results schema !! cn)
              <-> In cn (category_names schema))
  /\ (forall cn m, extract_field_counts ocr_results schema !! cn = Some m ->
        (forall f, ~ declares schema cn f) -> m = ∅).
Proof.
  destruct (extract_field_counts_inv ocr_results schema) as (Hdom & _ & _).
  split; [exact Hdom|].
  intros cn m Hm Hnone. apply map_eq. intros f. rewrite lookup_empty.
  destruct (m !! f) as [r|] eqn:Hf; [|reflexivity].
  exfalso. apply (Hnone f).
  apply (extract_field_counts_entry ocr_results schema cn m f r Hm Hf).
Qed.

Lemma extract_field_counts_exact_witness :
  (forall cn, is_Some (extract_field_counts label_with_count
                         (one_field "Plastic" "Plastic bottles") !! cn)
              <-> In cn (category_names (one_field "Plastic" "Plastic bottles")))
  /\ (forall cn f, declares (one_field "Plastic" "Plastic bottles") cn f ->
        exists m, extract_field_counts label_with_count
                    (one_field "Plastic" "Plastic bottles") !! cn = Some m
                  /\ m !! f = Some (resolve label_with_count
                                            (one_field "Plastic" "Plastic bottles") f))
  /\ (forall cn m f r,
        extract_field_counts label_with_count (one_field "Plastic" "Plastic bottles") !! cn
        = Some m ->
        m !! f = Some r -> declares (one_field "Plastic" "Plastic bottles") cn f).
Proof.
  apply (extract_field_counts_exact label_with_count (one_field "Plastic" "Plastic bottles")).
  intros f c1 c2 (a & [<- | []] & <- & _) (b & [<- | []] & <- & _). reflexivity.
Defined.

(** ** The engine instance and the public entry point *)

Section InstanceFacts.

Context {Image : Type}.

Lemma get_ocr_instance_returns (construct : outcome (@DataCardOCR Image))
    (st st' : option DataCardOCR) (ocr : DataCardOCR) :
  get_ocr_instance construct st = (Returns ocr, st') -> st' = Some ocr.
Proof.
  unfold get_ocr_instance. destruct st as [o|].
  - intros [= <- <-]. reflexivity.
  - destruct construct; intros [= <- <-]. reflexivity.
Qed.

Lemma process_image_returns (construct : outcome (@DataCardOCR Image))
    (st st' : option DataCardOCR) (image : string) (schema : FormSchemaOutput)
    (result : OcrFormResult) :
  process_image construct st image schema = (Returns result, st') ->
  exists ocr, get_ocr_instance construct st = (Returns ocr, st').
Proof.
  unfold process_image. destruct (get_ocr_instance construct st) as [[ocr | e] st0].
  - intros [= _ <-]. eauto.
  - discriminate.
Qed.

End InstanceFacts.

(** The engine is built once (lines 418-426): a call of [get_ocr_instance]
    that returns leaves its instance in the global, and every later call
    returns that same instance without running the constructor, whatever
    the constructor would do by then; a call that raises found no instance
    and leaves none, so the next call tries the constructor again. *)
Theorem ocr_instance_built_once {Image : Type}
    (construct : outcome (@DataCardOCR Image)) (st st' : option DataCardOCR) :
  (forall ocr, get_ocr_instance construct st = (Returns ocr, st') ->
     st' = Some ocr
     /\ forall later, get_ocr_instance later st' = (Returns ocr, st'))
  /\ (forall e, get_ocr_instance construct st = (Raises e, st') ->
        st = None /\ st' = None /\ construct = Raises e).
Proof.
  split.
  - intros ocr H. apply get_ocr_instance_returns in H as ->.
    split; [reflexivity|]. intros later. reflexivity.
  - intros e. unfold get_ocr_instance. destruct st as [o|]; [discriminate|].
    destruct construct; [discriminate|]. intros [= <- <-]. auto.
Qed.

(** Once one call of [process_image] has returned, no later call raises:
    the instance it left in the global is used, and every later call
    returns a form result and leaves the global as it is, whatever the
    constructor, the decoder and the OCR run do. *)
Theorem process_image_after_first_return {Image : Type}
    (construct later : outcome (@DataCardOCR Image)) (st st' : option DataCardOCR)
    (image image' : string) (schema schema' : FormSchemaOutput) (result : OcrFormResult) :
  process_image construct st image schema = (Returns result, st') ->
  exists result', process_image later st' image' schema' = (Returns result', st').
Proof.
  intros H. apply process_image_returns in H as [ocr H].
  apply get_ocr_instance_returns in H as ->.
  unfold process_image, get_ocr_instance.
  destruct (process_image_to_form_result ocr (inr image') schema'); eauto.
Qed.

Lemma process_image_after_first_return_witness :
  exists result',
    process_image (Raises "model files not found") (Some rejecting_engine) "aGVsbG8="
                  (one_field "Metal" "cans")
    = (Returns result', Some rejecting_engine).
Proof.
  apply (process_image_after_first_return
           (Returns rejecting_engine) (Raises "model files not found") None
           (Some rejecting_engine) "aGVsbG8=" "aGVsbG8="
           (one_field "Metal" "cans") (one_field "Metal" "cans")
           {| result_categories := ∅ |}).
  reflexivity.
Defined.

(** When [process_image_to_form_result] returns (lines 377-410), the image
    was decoded and read, and the form result mirrors the result of
    [extract_field_counts] on the fragments read: its keys are the category
    names of the schema, and each category result carries its key as name
    and the mapping of that category as fields. *)
Theorem form_result_mirrors_extraction {Image : Type} (ocr : @DataCardOCR Image)
    (image : string) (schema : FormSchemaOutput) (result : OcrFormResult) :
  process_image_to_form_result ocr (inr image) schema = Returns result ->
  exists img ocr_results,
    decode_base64_image ocr image = Returns img
    /\ process_image_ocr ocr img = Returns ocr_results
    /\ (forall cn, result_categories result !! cn
                   = (fun fields => {| name := cn; result_fields := fields |})
                       <$> extract_field_counts ocr_results schema !! cn)
    /\ (forall cn, is_Some (result_categories result !! cn)
                   <-> In cn (category_names schema)).
Proof.
  unfold process_image_to_form_result, bind.
  destruct (decode_base64_image ocr image) as [img | e] eqn:Hd; [|discriminate].
  destruct (process_image_ocr ocr img) as [frs | e] eqn:Ho; [|discriminate].
  intros [= <-]. exists img, frs. split; [reflexivity|]. split; [exact Ho|].
  assert (forall cn,
            map_imap (fun category_name fields =>
                        Some {| name := category_name; result_fields := fields |})
                     (extract_field_counts frs schema) !! cn
            = (fun fields => {| name := cn; result_fields := fields |})
                <$> extract_field_counts frs schema !! cn) as Hlook.
  { intros cn. rewrite map_lookup_imap.
    destruct (extract_field_counts frs schema !! cn); reflexivity. }
  split; [exact Hlook|].
  intros cn. simpl. rewrite Hlook.
  destruct (extract_field_counts_inv frs schema) as (Hdom & _ & _).
  rewrite <- Hdom. destruct (extract_field_counts frs schema !! cn); simpl.
  - split; eauto.
  - split; intros [? H]; discriminate.
Qed.

Lemma form_result_mirrors_extraction_witness :
  exists img ocr_results,
    decode_base64_image reading_engine "aGVsbG8=" = Returns img
    /\ process_image_ocr reading_engine img = Returns ocr_results
    /\ (forall cn,
          result_categories
            (build_form_result
               (extract_field_counts label_with_count (one_field "Plastic" "Plastic bottles")))
          !! cn
          = (fun fields => {| name := cn; result_fields := fields |})
              <$> extract_field_counts ocr_results (one_field "Plastic" "Plastic bottles") !! cn)
    /\ (forall cn,
          is_Some (result_categories
                     (build_form_result
                        (extract_field_counts label_with_count
                                              (one_field "Plastic" "Plastic bottles"))) !! cn)
          <-> In cn (category_names (one_field "Plastic" "Plastic bottles"))).
Proof.
  apply (form_result_mirrors_extraction reading_engine "aGVsbG8="
           (one_field "Plastic" "Plastic bottles")
           (build_form_result
              (extract_field_counts label_with_count (one_field "Plastic" "Plastic bottles")))).
  reflexivity.
Defined.

(** * Properties of the validation layer (backend/app/main.py) *)

Lemma build_form_result_lookup category_results cn :
  result_categories (build_form_result category_results) !! cn
  = (fun fields => {| name := cn; result_fields := fields |}) <$> category_results !! cn.
Proof.
  unfold build_form_result. simpl. rewrite map_lookup_imap.
  destruct (category_results !! cn); reflexivity.
Qed.

Lemma process_image_to_form_result_build {Image : Type} (ocr : @DataCardOCR Image)
    (image : string) (schema : FormSchemaOutput) (result : OcrFormResult) :
  process_image_to_form_result ocr (inr image) schema = Returns result ->
  exists img ocr_results,
    decode_base64_image ocr image = Returns img
    /\ process_image_ocr ocr img = Returns ocr_results
    /\ result = build_form_result (extract_field_counts ocr_results schema).
Proof.
  unfold process_image_to_form_result, bind.
  destruct (decode_base64_image ocr image) as [img | e] eqn:Hd; [|discriminate].
  destruct (process_image_ocr ocr img) as [frs | e] eqn:Ho; [|discriminate].
  intros [= <-]. exists img, frs. auto.
Qed.

Lemma from_ocr_field_result_eq int_of_str name r :
  from_ocr_field_result int_of_str name r
  = {| ktb_name := name;
       ktb_value := str_of_int (default 0 (value r));
       ktb_status := if Qlt_bool (default 0%Q (field_confidence r)) (95 # 100)
                     then NEEDS_VALIDATION else CONFIDENT |}.
Proof.
  unfold from_ocr_field_result, from_ocr_field. cbv zeta.
  destruct r as [[v|] [c|]]; simpl; try reflexivity;
    destruct (Qlt_bool c (95 # 100)); reflexivity.
Qed.

Lemma from_ocr_field_result_shape int_of_str name r :
  let field := from_ocr_field_result int_of_str name r in
  ktb_name field = name
  /\ ktb_status field <> ERROR
  /\ ktb_value field = str_of_int (default 0 (value r))
  /\ (ktb_status field = CONFIDENT
      <-> (95 # 100 <= default 0%Q (field_confidence r))%Q).
Proof.
  cbv zeta. rewrite from_ocr_field_result_eq. cbn [ktb_name ktb_status ktb_value].
  split; [reflexivity|]. split; [destruct (Qlt_bool _ _); discriminate|].
  split; [reflexivity|].
  destruct (Qlt_bool _ _) eqn:E.
  - apply Qlt_bool_iff in E. split; [discriminate|].
    intros Hc. exfalso. exact (Qlt_not_le _ _ E Hc).
  - split; [|reflexivity]. intros _.
    apply Qnot_lt_le. intros Hc. apply Qlt_bool_iff in Hc. congruence.
Qed.

(** What ocr.py stores never comes out of [from_ocr_field] as an error:
    the field keeps its name, its value is the decimal of the stored count,
    "0" when none is stored, and it is marked confident exactly when a
    confidence of at least 0.95 is stored with it; a field that was not
    located reads "0" and needs validation. *)
Theorem ocr_field_validated (int_of_str : string -> option Z) (name : string)
    (ocr_field : OcrFieldResult) :
  ktb_name (from_ocr_field_result int_of_str name ocr_field) = name
  /\ ktb_status (from_ocr_field_result int_of_str name ocr_field) <> ERROR
  /\ ktb_value (from_ocr_field_result int_of_str name ocr_field)
     = str_of_int (default 0 (value ocr_field))
  /\ (ktb_status (from_ocr_field_result int_of_str name ocr_field) = CONFIDENT
      <-> exists c, field_confidence ocr_field = Some c /\ (95 # 100 <= c)%Q)
  /\ from_ocr_field_result int_of_str name not_located
     = {| ktb_name := name; ktb_value := "0"; ktb_status := NEEDS_VALIDATION |}.
Proof.
  destruct (from_ocr_field_result_shape int_of_str name ocr_field) as (H1 & H2 & H3 & H4).
  split; [exact H1|]. split; [exact H2|]. split; [exact H3|]. split; [|reflexivity].
  rewrite H4. destruct (field_confidence ocr_field) as [c|]; simpl.
  - split; [eauto | intros (c' & [= <-] & H); exact H].
  - split; [intros H; exfalso; revert H; unfold Qle; simpl; lia|].
    intros (c' & H & _). discriminate.
Qed.

Lemma from_ocr_form_extraction int_of_str ocr_results schema :
  ktb_categories (from_ocr_form int_of_str schema
                    (build_form_result (extract_field_counts ocr_results schema)))
  = map (fun cs => from_ocr_category int_of_str cs
                     (category_result_of (extract_field_counts ocr_results schema) cs))
        (categories schema).
Proof.
  unfold from_ocr_form. cbn [ktb_categories].
  destruct (extract_field_counts_inv ocr_results schema) as (Hdom & _ & _).
  assert (forall cs, In cs (categories schema) ->
            is_Some (extract_field_counts ocr_results schema !! category_name cs)) as Hkeys.
  { intros cs Hin. apply Hdom. unfold category_names. apply in_map. exact Hin. }
  induction (categories schema) as [|cs l IH]; [reflexivity|].
  cbn [flat_map map]. rewrite build_form_result_lookup.
  destruct (Hkeys cs (or_introl eq_refl)) as [m Hm].
  unfold category_result_of at 1. rewrite Hm. simpl. f_equal.
  apply IH. intros cs' Hin. apply Hkeys. right. exact Hin.
Qed.

Lemma from_ocr_category_names int_of_str cs oc :
  map ktb_name (ktb_fields (from_ocr_category int_of_str cs oc)) = map field_name (fields cs)
  /\ Forall (fun field => ktb_status field <> ERROR)
            (ktb_fields (from_ocr_category int_of_str cs oc)).
Proof.
  unfold from_ocr_category. cbn [ktb_fields]. cbv zeta.
  induction (fields cs) as [|fs l [IH1 IH2]]; [split; [reflexivity | constructor]|].
  cbn [map]. split.
  - rewrite IH1. f_equal. rewrite from_ocr_field_result_eq. reflexivity.
  - constructor; [|exact IH2].
    rewrite from_ocr_field_result_eq. simpl. destruct (Qlt_bool _ _); discriminate.
Qed.

(** For an image that was decoded and read, the validated form mirrors
    the schema: one category per category of the schema, in schema order
    and under its name, each listing the fields of that category in schema
    order and by name, none of them with the error status. *)
Theorem validated_form_mirrors_schema {Image : Type} (int_of_str : string -> option Z)
    (ocr : @DataCardOCR Image) (image : string) (schema : FormSchemaOutput)
    (result : OcrFormResult) :
  process_image_to_form_result ocr (inr image) schema = Returns result ->
  map ktb_category_name (ktb_categories (from_ocr_form int_of_str schema result))
  = category_names schema
  /\ Forall2 (fun cs category =>
                map ktb_name (ktb_fields category) = map field_name (fields cs)
                /\ Forall (fun field => ktb_status field <> ERROR) (ktb_fields category))
             (categories schema)
             (ktb_categories (from_ocr_form int_of_str schema result)).
Proof.
  intros H. apply process_image_to_form_result_build in H as (img & frs & _ & _ & ->).
  rewrite from_ocr_form_extraction. unfold category_names.
  induction (categories schema) as [|cs l [IH1 IH2]]; [split; [reflexivity | constructor]|].
  cbn [map]. split.
  - rewrite IH1. reflexivity.
  - constructor; [apply from_ocr_category_names | exact IH2].
Qed.

Lemma validated_form_mirrors_schema_witness :
  map ktb_category_name
      (ktb_categories
         (from_ocr_form (fun _ => None) (one_field "Plastic" "Plastic bottles")
            (build_form_result
               (extract_field_counts label_with_count (one_field "Plastic" "Plastic bottles")))))
  = category_names (one_field "Plastic" "Plastic bottles")
  /\ Forall2 (fun cs category =>
                map ktb_name (ktb_fields category) = map field_name (fields cs)
                /\ Forall (fun field => ktb_status field <> ERROR) (ktb_fields category))
             (categories (one_field "Plastic" "Plastic bottles"))
             (ktb_categories
                (from_ocr_form (fun _ => None) (one_field "Plastic" "Plastic bottles")
                   (build_form_result
                      (extract_field_counts label_with_count
                                            (one_field "Plastic" "Plastic bottles"))))).
Proof.
  apply (validated_form_mirrors_schema (fun _ => None) reading_engine "aGVsbG8="
           (one_field "Plastic" "Plastic bottles")
           (build_form_result
              (extract_field_counts label_with_count (one_field "Plastic" "Plastic bottles")))).
  reflexivity.
Defined.

Lemma count_fields_from (field_list : list KTBFormField) (count : Z) :
  fold_left (fun count field => if has_issue field then count + 1 else count) field_list count
  = count + Z.of_nat (length (List.filter has_issue field_list)).
Proof.
  revert count. induction field_list as [|f l IH]; intros count; simpl; [lia|].
  rewrite IH. destruct (has_issue f); simpl length; lia.
Qed.

Lemma count_categories_from (cats : list KTBFormCategory) (count : Z) :
  fold_left (fun count category =>
               fold_left (fun count field => if has_issue field then count + 1 else count)
                         (ktb_fields category) count) cats count
  = count + fold_right (fun category acc => issues_of category + acc) 0 cats.
Proof.
  revert count. induction cats as [|c l IH]; intros count; simpl; [lia|].
  rewrite IH, count_fields_from. unfold issues_of. lia.
Qed.

Lemma count_issues_sum (result : KTBFormResult) :
  count_issues result
  = fold_right (fun category acc => issues_of category + acc) 0
               (ktb_categories (result_form result)).
Proof. unfold count_issues. rewrite count_categories_from. lia. Qed.

(** An image that could not be decoded or read is reported as a form with
    no category, and such a form counts zero issues: in the response it
    ranks with the forms that need no validation. *)
Theorem failed_image_counts_no_issue {Image : Type} (int_of_str : string -> option Z)
    (construct : outcome (@DataCardOCR Image)) (st st' : option DataCardOCR)
    (ocr : DataCardOCR) (image uuid e : string) (schema : FormSchemaOutput) :
  get_ocr_instance construct st = (Returns ocr, st') ->
  process_image_to_form_result ocr (inr image) schema = Raises e ->
  exists result,
    process_image construct st image schema = (Returns result, st')
    /\ from_ocr_form int_of_str schema result = {| ktb_categories := [] |}
    /\ count_issues {| result_uuid := uuid; result_image := image;
                       result_form := from_ocr_form int_of_str schema result |} = 0.
Proof.
  intros Hinst Hraise. rewrite (process_image_with_instance _ _ _ _ _ _ Hinst), Hraise.
  eexists. split; [reflexivity|].
  assert (from_ocr_form int_of_str schema {| result_categories := ∅ |}
          = {| ktb_categories := [] |}) as Hform.
  { unfold from_ocr_form. f_equal. cbn [result_categories].
    induction (categories schema) as [|cs l IH]; [reflexivity|].
    cbn [flat_map]. rewrite lookup_empty. exact IH. }
  split; [exact Hform|]. rewrite Hform. reflexivity.
Qed.

Lemma failed_image_counts_no_issue_witness :
  exists result,
    process_image (Returns rejecting_engine) None "aGVsbG8=" (one_field "Metal" "cans")
    = (Returns result, Some rejecting_engine)
    /\ from_ocr_form (fun _ => None) (one_field "Metal" "cans") result
       = {| ktb_categories := [] |}
    /\ count_issues {| result_uuid := "card-1"; result_image := "aGVsbG8=";
                       result_form := from_ocr_form (fun _ => None)
                                                    (one_field "Metal" "cans") result |} = 0.
Proof.
  apply (failed_image_counts_no_issue (fun _ => None) (Returns rejecting_engine) None
           (Some rejecting_engine) rejecting_engine "aGVsbG8=" "card-1"
           "cannot identify image file" (one_field "Metal" "cans")).
  - reflexivity.
  - reflexivity.
Defined.

(** A field whose name the lookup table files under another category has
    no entry in its own category's mapping, and [from_ocr_category] fills
    the gap with its default (line 166): whatever was read off the card,
    the validated form lists the field with value "0" and the status
    confident. *)
Theorem misfiled_field_reported_confident (int_of_str : string -> option Z)
    (ocr_results : list OcrItem) (schema : FormSchemaOutput)
    (cs : CategorySchemaInput) (f : string) :
  In cs (categories schema) ->
  In f (map field_name (fields cs)) ->
  field_to_category schema !! f <> Some (category_name cs) ->
  exists ocr_category,
    result_categories (build_form_result (extract_field_counts ocr_results schema))
      !! category_name cs = Some ocr_category
    /\ result_fields ocr_category !! f = None
    /\ In {| ktb_name := f; ktb_value := "0"; ktb_status := CONFIDENT |}
          (ktb_fields (from_ocr_category int_of_str cs ocr_category)).
Proof.
  intros Hcs Hf Hftc.
  destruct (extract_field_counts_inv ocr_results schema) as (Hdom & Hentry & _).
  destruct (proj2 (Hdom (category_name cs))) as [m Hm].
  { unfold category_names. apply in_map. exact Hcs. }
  exists {| name := category_name cs; result_fields := m |}.
  split; [rewrite build_form_result_lookup, Hm; reflexivity|].
  assert (m !! f = None) as Hnone.
  { destruct (m !! f) as [r|] eqn:E; [|reflexivity].
    destruct (Hentry _ _ _ _ Hm E) as (_ & H & _). contradiction. }
  split; [exact Hnone|].
  unfold from_ocr_category. cbn [ktb_fields result_fields]. cbv zeta.
  apply in_map_iff in Hf as (fs & <- & Hfs).
  apply in_map_iff. exists fs. split; [|exact Hfs].
  rewrite Hnone. reflexivity.
Qed.

Lemma misfiled_field_reported_confident_witness :
  exists ocr_category,
    result_categories (build_form_result (extract_field_counts label_only shared_name_schema))
      !! category_name plastic_category = Some ocr_category
    /\ result_fields ocr_category !! "Other pieces" = None
    /\ In {| ktb_name := "Other pieces"; ktb_value := "0"; ktb_status := CONFIDENT |}
          (ktb_fields (from_ocr_category (fun _ => None) plastic_category ocr_category)).
Proof.
  apply (misfiled_field_reported_confident (fun _ => None) label_only shared_name_schema
           plastic_category "Other pieces").
  - left. reflexivity.
  - left. reflexivity.
  - vm_compute. intros H. discriminate H.
Defined.

Lemma flat_map_length_sum {A B} (g : A -> list B) (l : list A) :
  Z.of_nat (length (flat_map g l))
  = fold_right (fun a acc => Z.of_nat (length (g a)) + acc) 0 l.
Proof.
  induction l as [|a l IH]; simpl; [reflexivity|].
  rewrite length_app, Nat2Z.inj_add, IH. reflexivity.
Qed.

(** When the OCR run finds no text at all and no field name is declared
    under two category names, every field of the validated form reads "0"
    and needs validation, so the form counts as many issues as the schema
    has fields - unlike the form of an image that could not be read, which
    counts none. *)
Theorem nothing_read_flags_every_field (int_of_str : string -> option Z)
    (schema : FormSchemaOutput) (uuid image : string) :
  (forall f c1 c2, declares schema c1 f -> declares schema c2 f -> c1 = c2) ->
  Forall (fun category =>
            Forall (fun field => ktb_value field = "0"%string
                                 /\ ktb_status field = NEEDS_VALIDATION)
                   (ktb_fields category))
         (ktb_categories (from_ocr_form int_of_str schema
                            (build_form_result (extract_field_counts [] schema))))
  /\ count_issues {| result_uuid := uuid; result_image := image;
                     result_form := from_ocr_form int_of_str schema
                                      (build_form_result (extract_field_counts [] schema)) |}
     = Z.of_nat (length (all_field_names schema)).
Proof.
  intros Huniq.
  assert (forall cs, In cs (categories schema) ->
            ktb_fields (from_ocr_category int_of_str cs
                          (category_result_of (extract_field_counts [] schema) cs))
            = map (fun fs => {| ktb_name := field_name fs; ktb_value := "0";
                                ktb_status := NEEDS_VALIDATION |}) (fields cs)) as Hcat.
  { intros cs Hcs. unfold from_ocr_category. cbn [ktb_fields]. cbv zeta.
    apply map_ext_in. intros fs Hfs.
    assert (declares schema (category_name cs) (field_name fs)) as Hd.
    { exists cs. split; [exact Hcs|]. split; [reflexivity|]. apply in_map. exact Hfs. }
    destruct (extract_field_counts_declared [] schema (field_name fs)
                (proj2 (declares_names _ _ _ Hd))) as (cn & m & _ & Hd' & Hm & Hlook).
    rewrite (Huniq _ _ _ Hd' Hd) in Hm.
    unfold category_result_of. cbn [result_fields]. rewrite Hm. simpl.
    rewrite Hlook, resolve_empty. reflexivity. }
  rewrite count_issues_sum. cbn [result_form]. rewrite from_ocr_form_extraction.
  unfold all_field_names. rewrite flat_map_length_sum.
  induction (categories schema) as [|cs l IH]; [split; [constructor | reflexivity]|].
  destruct IH as [IH1 IH2].
  { intros cs' Hin. apply Hcat. right. exact Hin. }
  cbn [map fold_right]. rewrite IH2. unfold issues_of at 1.
  rewrite (Hcat cs (or_introl eq_refl)). split.
  - constructor; [|exact IH1]. cbv beta.
    rewrite (Hcat cs (or_introl eq_refl)).
    apply List.Forall_forall. intros fld Hin. apply in_map_iff in Hin as (fs & <- & _). auto.
  - f_equal. rewrite !length_map. f_equal.
    induction (fields cs) as [|fs fl IHf]; [reflexivity|]. simpl. rewrite IHf. reflexivity.
Qed.

Lemma nothing_read_flags_every_field_witness :
  Forall (fun category =>
            Forall (fun field => ktb_value field = "0"%string
                                 /\ ktb_status field = NEEDS_VALIDATION)
                   (ktb_fields category))
         (ktb_categories (from_ocr_form (fun _ => None) (one_field "Metal" "cans")
                            (build_form_result
                               (extract_field_counts [] (one_field "Metal" "cans")))))
  /\ count_issues {| result_uuid := "card-1"; result_image := "aGVsbG8=";
                     result_form := from_ocr_form (fun _ => None) (one_field "Metal" "cans")
                                      (build_form_result
                                         (extract_field_counts [] (one_field "Metal" "cans"))) |}
     = Z.of_nat (length (all_field_names (one_field "Metal" "cans"))).
Proof.
  apply (nothing_read_flags_every_field (fun _ => None) (one_field "Metal" "cans")
           "card-1" "aGVsbG8=").
  intros f c1 c2 (a & [<- | []] & <- & _) (b & [<- | []] & <- & _). reflexivity.
Defined.

(** ** The upload endpoint *)

Lemma sort_stable_sorted {A} (le : A -> A -> bool) (l : list A) :
  (forall a b, le a b = false -> le b a = true) ->
  (forall a b c, le a b = true -> le b c = true -> le a c = true) ->
  StronglySorted (fun a b => le a b = true) (sort_stable le l).
Proof.
  intros Htot Htrans. induction l as [|x l IH]; simpl; [constructor|].
  apply insert_stable_sorted; assumption.
Qed.

Lemma sort_by_issues_sorted (form_results : list KTBFormResult) :
  StronglySorted (fun a b => count_issues b <= count_issues a) (sort_by_issues form_results).
Proof.
  pose proof (sort_stable_sorted (fun a b => count_issues b <=? count_issues a) form_results)
    as H.
  eapply StronglySorted_ind with
    (P := StronglySorted (fun a b => count_issues b <= count_issues a)) in H.
  - exact H.
  - constructor.
  - intros a l _ IH Hall. constructor; [exact IH|].
    eapply List.Forall_impl; [|exact Hall]. intros b Hb. apply Z.leb_le. exact Hb.
  - intros a b Hab. apply Z.leb_gt in Hab. apply Z.leb_le. lia.
  - intros a b c Hab Hbc. apply Z.leb_le in Hab, Hbc. apply Z.leb_le. lia.
Qed.

Section UploadFacts.

Context {Image : Type}.
Variable int_of_str : string -> option Z.
Variable b64decode : string -> option string.
Variable convert_image_to_base64 : string -> outcome string.
Variable construct : outcome (@DataCardOCR Image).

Lemma process_files_responds (file_list : list FilePayload) (schema : FormSchemaOutput)
    (st st' : option DataCardOCR) (form_results : list KTBFormResult) :
  process_files int_of_str b64decode convert_image_to_base64 construct file_list schema st
  = (Responds form_results, st') ->
  map result_uuid form_results = map file_uuid file_list
  /\ Forall (fun file_data => is_Some (b64decode (file_base64 file_data))) file_list.
Proof.
  revert st st' form_results.
  induction file_list as [|fd rest IH]; intros st st' rs; simpl.
  - intros [= <- <-]. split; [reflexivity | constructor].
  - destruct (b64decode (file_base64 fd)) as [content|] eqn:Hb; [|discriminate].
    destruct (convert_image_to_base64 content) as [b64 | e]; [|discriminate].
    destruct (process_image construct st b64 schema) as [[r | e] st0]; [|discriminate].
    destruct (process_files _ _ _ _ rest schema st0) as [[rs' | code detail | e] st1] eqn:Hrest;
      try discriminate.
    intros [= <- <-]. destruct (IH _ _ _ Hrest) as [H1 H2]. split.
    + simpl. rewrite H1. reflexivity.
    + constructor; [eauto | exact H2].
Qed.

End UploadFacts.

(** A response of [upload_images] covers the whole batch or nothing: when
    the endpoint responds, there were at most 100 files, every file's
    base64 decoded (one bad file, like one file too many, fails the whole
    request), and the response holds one form per file, each under its
    file's uuid, ordered by the number of issues, most first. *)
Theorem upload_response_complete_and_ordered {Image : Type}
    (int_of_str : string -> option Z) (b64decode : string -> option string)
    (convert_image_to_base64 : string -> outcome string)
    (get_schema : outcome FormSchemaOutput) (construct : outcome (@DataCardOCR Image))
    (payload : UploadPayload) (st st' : option DataCardOCR)
    (results : list KTBFormResult) :
  upload_images int_of_str b64decode convert_image_to_base64 get_schema construct payload st
  = (Responds results, st') ->
  Z.of_nat (length (files payload)) <= 100
  /\ Forall (fun file_data => is_Some (b64decode (file_base64 file_data))) (files payload)
  /\ length results = length (files payload)
  /\ Permutation (map result_uuid results) (map file_uuid (files payload))
  /\ StronglySorted (fun a b => count_issues b <= count_issues a) results.
Proof.
  unfold upload_images.
  destruct (100 <? Z.of_nat (length (files payload))) eqn:Hlen; [discriminate|].
  apply Z.ltb_ge in Hlen.
  destruct get_schema as [schema | e]; [|discriminate].
  destruct (process_files _ _ _ _ (files payload) schema st)
    as [[rs | code detail | e] st0] eqn:Hfiles; try discriminate.
  intros [= <- <-].
  destruct (process_files_responds _ _ _ _ _ _ _ _ _ Hfiles) as [Huuid Hdec].
  assert (Permutation (sort_by_issues rs) rs) as Hperm by apply sort_stable_perm.
  split; [exact Hlen|]. split; [exact Hdec|]. split; [|split].
  - rewrite (Permutation_length Hperm).
    rewrite <- (length_map result_uuid rs), Huuid. apply length_map.
  - rewrite <- Huuid. apply Permutation_map. exact Hperm.
  - apply sort_by_issues_sorted.
Qed.

Lemma upload_response_complete_and_ordered_witness :
  Z.of_nat (length (files two_files)) <= 100
  /\ Forall (fun file_data => is_Some ((fun s : string => Some s) (file_base64 file_data)))
            (files two_files)
  /\ length two_files_response = length (files two_files)
  /\ Permutation (map result_uuid two_files_response) (map file_uuid (files two_files))
  /\ StronglySorted (fun a b => count_issues b <= count_issues a) two_files_response.
Proof.
  apply (upload_response_complete_and_ordered (fun _ => None) (fun s => Some s)
           (fun s => Returns s) (Returns (one_field "Plastic" "Plastic bottles"))
           (Returns reading_engine) two_files None (Some reading_engine)
           two_files_response).
  vm_compute. reflexivity.
Defined.

(** ** CSV generation *)

Lemma metadata_fold_lookup (l : list CsvMetadataField) (m : gmap string string) (k : string) :
  (In k (map metadata_name l) ->
   exists field, In field l /\ metadata_name field = k
                 /\ fold_left (fun m field => <[metadata_name field := metadata_value field]> m)
                              l m !! k = Some (metadata_value field))
  /\ (~ In k (map metadata_name l) ->
      fold_left (fun m field => <[metadata_name field := metadata_value field]> m) l m !! k
      = m !! k).
Proof.
  revert m. induction l as [|a l IH]; intros m; simpl.
  - split; [intros [] | reflexivity].
  - destruct (IH (<[metadata_name a := metadata_value a]> m)) as [IH1 IH2].
    destruct (in_dec String.string_dec k (map metadata_name l)) as [Hin | Hnin].
    + split; [|intros H; exfalso; apply H; right; exact Hin].
      intros _. destruct (IH1 Hin) as (fld & Hf & Hn & Hl).
      exists fld. split; [right; exact Hf | auto].
    + split.
      * intros [Hk | Hk]; [|contradiction].
        exists a. split; [left; reflexivity|]. split; [exact Hk|].
        rewrite (IH2 Hnin), <- Hk. apply lookup_insert_eq.
      * intros H. rewrite (IH2 Hnin). apply lookup_insert_ne.
        intros Hk. apply H. left. exact Hk.
Qed.

Lemma metadata_values_nodup (request : CsvGenerationRequest) (field : CsvMetadataField) :
  List.NoDup (map metadata_name (csv_metadata request)) ->
  In field (csv_metadata request) ->
  metadata_values request !! metadata_name field = Some (metadata_value field).
Proof.
  unfold metadata_values. generalize (∅ : gmap string string).
  induction (csv_metadata request) as [|a l IH]; intros m Hnd Hin; [destruct Hin|].
  simpl in Hnd |- *. apply List.NoDup_cons_iff in Hnd as [Hna Hnd].
  destruct Hin as [<- | Hin].
  - rewrite (proj2 (metadata_fold_lookup l _ _) Hna). apply lookup_insert_eq.
  - apply IH; assumption.
Qed.

Lemma row_dict_lookup request category field key :
  row_dict request category field !! key
  = match metadata_values request !! key with
    | Some v => Some (CellStr v)
    | None =>
        if String.eqb key "category_name" then Some (CellStr (csv_category category))
        else if String.eqb key "value" then Some (CellInt (csv_field_value field))
        else if String.eqb key "field_name" then Some (CellStr (csv_field_name field))
        else None
    end.
Proof.
  unfold row_dict. rewrite lookup_union, lookup_fmap.
  destruct (metadata_values request !! key) as [v|]; simpl.
  - destruct (_ !! key); reflexivity.
  - rewrite !lookup_insert.
    destruct (String.eqb_spec key "category_name") as [-> | H1].
    + rewrite decide_True by reflexivity. reflexivity.
    + rewrite decide_False by congruence.
      destruct (String.eqb_spec key "value") as [-> | H2].
      * rewrite decide_True by reflexivity. reflexivity.
      * rewrite decide_False by congruence.
        destruct (String.eqb_spec key "field_name") as [-> | H3].
        -- rewrite decide_True by reflexivity. reflexivity.
        -- rewrite decide_False by congruence. rewrite lookup_empty. reflexivity.
Qed.

(** The rows handed to the CSV writer: a header and one row per field of
    the request, every row as wide as the header, which has the three fixed
    columns followed by one column per metadata field.  Where the metadata
    names are distinct and none of them is "field_name", "value" or
    "category_name", a row holds the field's name, its value and its
    category, followed by the metadata values in the order of the
    request. *)
Theorem csv_rows_shape (request : CsvGenerationRequest) :
  length (csv_rows request)
  = S (length (flat_map csv_fields (cleanup_data request)))
  /\ Forall (fun row => length row = (3 + length (csv_metadata request))%nat)
            (csv_rows request)
  /\ (List.NoDup (metadata_columns request) ->
      (forall key, In key ["field_name"; "value"; "category_name"]%string ->
                   ~ In key (metadata_columns request)) ->
      tl (csv_rows request)
      = flat_map (fun category =>
                    map (fun field =>
                           [CellStr (csv_field_name field); CellInt (csv_field_value field);
                            CellStr (csv_category category)]
                           ++ map (fun md => CellStr (metadata_value md))
                                  (csv_metadata request))
                        (csv_fields category))
                 (cleanup_data request)).
Proof.
  unfold csv_rows. split; [|split].
  - cbn [length]. f_equal.
    induction (cleanup_data request) as [|c l IH]; [reflexivity|].
    cbn [flat_map]. rewrite !length_app, length_map, IH. reflexivity.
  - constructor.
    + rewrite length_map. unfold fieldnames, metadata_columns.
      rewrite length_app, length_map. reflexivity.
    + apply List.Forall_forall. intros row Hrow.
      apply in_flat_map in Hrow as (c & _ & Hrow).
      apply in_map_iff in Hrow as (fld & <- & _).
      unfold dict_to_list, fieldnames, metadata_columns.
      rewrite length_map, length_app, length_map. reflexivity.
  - intros Hnd Hfixed. cbn [tl].
    assert (forall key, In key ["field_name"; "value"; "category_name"]%string ->
              metadata_values request !! key = None) as Hfree.
    { intros key Hkey. unfold metadata_values.
      rewrite (proj2 (metadata_fold_lookup (csv_metadata request) ∅ key) (Hfixed key Hkey)).
      apply lookup_empty. }
    apply flat_map_ext. intros c. apply map_ext. intros fld.
    unfold dict_to_list, fieldnames. rewrite map_app. f_equal.
    + cbn [map]. rewrite !row_dict_lookup.
      rewrite !Hfree by (simpl; auto). reflexivity.
    + unfold metadata_columns. rewrite map_map. apply map_ext_in. intros md Hmd.
      rewrite row_dict_lookup, (metadata_values_nodup request md Hnd Hmd). reflexivity.
Qed.

Lemma metadata_fold_last (l : list CsvMetadataField) (m : gmap string string) (k : string) :
  In k (map metadata_name l) ->
  exists before md after,
    l = before ++ md :: after
    /\ metadata_name md = k
    /\ ~ In k (map metadata_name after)
    /\ fold_left (fun m field => <[metadata_name field := metadata_value field]> m) l m !! k
       = Some (metadata_value md).
Proof.
  revert m. induction l as [|a l IH]; intros m; simpl; [intros []|].
  intros Hin.
  destruct (in_dec String.string_dec k (map metadata_name l)) as [Hl | Hl].
  - destruct (IH (<[metadata_name a := metadata_value a]> m) Hl)
      as (before & md & after & -> & Hn & Hafter & Hlook).
    exists (a :: before), md, after. auto.
  - destruct Hin as [Hk | Hk]; [|contradiction].
    exists [], a, l. split; [reflexivity|]. split; [exact Hk|]. split; [exact Hl|].
    rewrite (proj2 (metadata_fold_lookup l _ k) Hl), <- Hk. apply lookup_insert_eq.
Qed.

(** The metadata of the request is spread last into the dict of a row
    (lines 499-504): for a key that names a metadata field, the row holds
    the text of the LAST metadata field of that name (no field after it
    has the name).  So a metadata field named "value" takes the place of
    the count in every row, which then shows that metadata text and no
    number in the value column; the same holds for "field_name" and
    "category_name". *)
Theorem csv_metadata_overrides_fixed_columns (request : CsvGenerationRequest)
    (category : CsvFormCategory) (field : CsvFormField) (key : string) :
  In key (metadata_columns request) ->
  exists before md after,
    csv_metadata request = before ++ md :: after
    /\ metadata_name md = key
    /\ ~ In key (map metadata_name after)
    /\ row_dict request category field !! key = Some (CellStr (metadata_value md))
    /\ (key = "value"%string ->
        nth_error (dict_to_list (fieldnames request) (row_dict request category field)) 1
        = Some (CellStr (metadata_value md))).
Proof.
  intros Hkey.
  destruct (metadata_fold_last (csv_metadata request) ∅ key Hkey)
    as (before & md & after & Hsplit & Hname & Hafter & Hlook).
  exists before, md, after.
  split; [exact Hsplit|]. split; [exact Hname|]. split; [exact Hafter|].
  assert (row_dict request category field !! key = Some (CellStr (metadata_value md))) as Hrow.
  { rewrite row_dict_lookup. unfold metadata_values. rewrite Hlook. reflexivity. }
  split; [exact Hrow|].
  intros ->. unfold dict_to_list, fieldnames. cbn [app map nth_error].
  rewrite Hrow. reflexivity.
Qed.

Lemma csv_metadata_overrides_fixed_columns_witness :
  (exists before md after,
     csv_metadata value_twice_request = before ++ md :: after
     /\ metadata_name md = "value"%string
     /\ ~ In "value"%string (map metadata_name after)
     /\ row_dict value_twice_request
                 {| csv_category := "Plastics"; csv_fields := [] |}
                 {| csv_field_name := "bottles"; csv_field_value := 5 |} !! "value"
        = Some (CellStr (metadata_value md))
     /\ ("value"%string = "value"%string ->
         nth_error
           (dict_to_list (fieldnames value_twice_request)
              (row_dict value_twice_request
                        {| csv_category := "Plastics"; csv_fields := [] |}
                        {| csv_field_name := "bottles"; csv_field_value := 5 |})) 1
         = Some (CellStr (metadata_value md))))
  /\ csv_rows value_twice_request
     = [ [CellStr "field_name"; CellStr "value"; CellStr "category_name";
          CellStr "value"; CellStr "value"];
         [CellStr "bottles"; CellStr "high"; CellStr "Plastics";
          CellStr "high"; CellStr "high"] ].
Proof.
  split.
  - apply (csv_metadata_overrides_fixed_columns value_twice_request
             {| csv_category := "Plastics"; csv_fields := [] |}
             {| csv_field_name := "bottles"; csv_field_value := 5 |} "value").
    left. reflexivity.
  - vm_compute. reflexivity.
Defined.

(** * Properties of backend/utils/preprocessor.py *)

Lemma split_on_comma_plain (s : str) :
  has_comma s = false -> split_on_comma s = [s].
Proof.
  induction s as [|c s IH]; simpl; [reflexivity|].
  destruct (Ascii.eqb c ","); simpl; [discriminate|].
  intros H. rewrite (IH H). reflexivity.
Qed.

Lemma split_on_comma_app (p rest : str) :
  has_comma p = false ->
  split_on_comma (p ++ ","%char :: rest) = p :: split_on_comma rest.
Proof.
  induction p as [|c p IH]; simpl; [reflexivity|].
  destruct (Ascii.eqb c ","); simpl; [discriminate|].
  intros H. rewrite (IH H). reflexivity.
Qed.

Lemma split_on_comma_pieces (s : str) :
  split_on_comma s <> [] /\ Forall (fun piece => has_comma piece = false) (split_on_comma s).
Proof.
  induction s as [|c s [IH1 IH2]]; simpl.
  - split; [discriminate | repeat constructor].
  - destruct (Ascii.eqb c ",") eqn:E.
    + split; [discriminate | constructor; [reflexivity | exact IH2]].
    + destruct (split_on_comma s) as [|piece pieces]; [congruence|].
      split; [discriminate|]. inversion IH2; subst.
      constructor; [simpl; rewrite E; assumption | assumption].
Qed.

Lemma has_comma_app (p q : str) : has_comma (p ++ q) = has_comma p || has_comma q.
Proof. unfold has_comma. apply existsb_app. Qed.

(** What [decode_base64_image] hands to the base64 decoder (lines 48-50):
    a string without a comma as it is; of a data URI "prefix,payload" the
    payload; and of a string with more commas only the piece between the
    first two, the rest being dropped.  What is handed on never holds a
    comma. *)
Theorem data_uri_payload (base64_string : str) :
  (has_comma base64_string = false -> strip_data_uri base64_string = base64_string)
  /\ (forall uri_prefix payload,
        has_comma uri_prefix = false -> has_comma payload = false ->
        strip_data_uri (uri_prefix ++ ","%char :: payload) = payload
        /\ forall rest,
             strip_data_uri (uri_prefix ++ ","%char :: payload ++ ","%char :: rest) = payload)
  /\ has_comma (strip_data_uri base64_string) = false.
Proof.
  split; [|split].
  - unfold strip_data_uri. intros ->. reflexivity.
  - intros p q Hp Hq.
    assert (forall tail, has_comma (p ++ ","%char :: tail) = true) as Hc.
    { intros tail. rewrite has_comma_app. simpl. apply orb_true_r. }
    split.
    + unfold strip_data_uri. rewrite Hc, (split_on_comma_app _ _ Hp).
      rewrite (split_on_comma_plain _ Hq). reflexivity.
    + intros rest. unfold strip_data_uri. rewrite Hc, (split_on_comma_app _ _ Hp).
      rewrite (split_on_comma_app _ _ Hq). reflexivity.
  - unfold strip_data_uri. destruct (has_comma base64_string) eqn:E; [|exact E].
    destruct (split_on_comma_pieces base64_string) as [_ Hall].
    destruct (split_on_comma base64_string) as [|a [|b l]]; try reflexivity.
    inversion Hall as [|? ? _ Hall']; subst. inversion Hall'; subst. assumption.
Qed.

Example data_uri_ex :
  strip_data_uri (of_string "data:image/png;base64,aGVsbG8=") = of_string "aGVsbG8=".
Proof. reflexivity. Qed.

(** * The extraction reads the top-left corner only *)

Lemma insert_stable_related {A} (R : A -> A -> Prop) (le : A -> A -> bool) :
  (forall a a' b b', R a a' -> R b b' -> le a b = le a' b') ->
  forall x x' l l', R x x' -> Forall2 R l l' ->
                    Forall2 R (insert_stable le x l) (insert_stable le x' l').
Proof.
  intros Hle x x' l l' Hx Hl. induction Hl as [|h h' t t' Hh Ht IH]; simpl.
  - constructor; [exact Hx | constructor].
  - rewrite (Hle x x' h h' Hx Hh). destruct (le x' h').
    + constructor; [exact Hx|]. constructor; assumption.
    + constructor; assumption.
Qed.

Lemma sorted_results_related l l' :
  Forall2 same_reading l l' -> Forall2 same_reading (sorted_results l) (sorted_results l').
Proof.
  intros H. unfold sorted_results. induction H as [|x x' t t' Hx Ht IH]; simpl.
  - constructor.
  - apply insert_stable_related; [|exact Hx | exact IH].
    intros a a' b b' (_ & _ & Hax & Hay) (_ & _ & Hbx & Hby).
    unfold position_lt. rewrite Hax, Hay, Hbx, Hby. reflexivity.
Qed.

Lemma item_matches_related ws l l' :
  Forall2 same_reading l l' -> item_matches ws l = item_matches ws l'.
Proof.
  intros H. unfold item_matches. induction H as [|x x' t t' Hx Ht IH]; simpl; [reflexivity|].
  destruct Hx as (Ht' & Hc & Hx & Hy). rewrite IH, Ht', Hc, Hx, Hy. reflexivity.
Qed.

Lemma blocked_related item_name item_x item_y x l l' all_items :
  Forall2 same_reading l l' ->
  blocked item_name item_x item_y x l all_items
  = blocked item_name item_x item_y x l' all_items.
Proof.
  intros H. unfold blocked.
  assert (forall ws, existsb (blocks item_x item_y x ws) l
                     = existsb (blocks item_x item_y x ws) l') as Hex.
  { intros ws. induction H as [|a a' t t' Ha Ht IH]; simpl; [reflexivity|].
    rewrite IH. f_equal. destruct Ha as (Ht' & _ & Hx & Hy).
    unfold blocks. rewrite Ht', Hx, Hy. reflexivity. }
  induction all_items as [|o os IH]; simpl; [reflexivity|].
  rewrite IH, Hex. reflexivity.
Qed.

Lemma link_step_related item_name item_x item_y items items' all_items b c c' :
  Forall2 same_reading items items' -> same_reading c c' ->
  link_step item_name item_x item_y items all_items b c
  = link_step item_name item_x item_y items' all_items b c'.
Proof.
  intros H (Ht' & Hc & Hx & Hy). unfold link_step.
  rewrite Ht', Hc, Hx, Hy.
  destruct (re_search _) as [[pos ds]|]; [|reflexivity].
  rewrite (blocked_related item_name item_x item_y (x_min (box c')) items items' all_items H).
  reflexivity.
Qed.

Lemma link_fold_related item_name item_x item_y items items' all_items l l' :
  Forall2 same_reading items items' -> Forall2 same_reading l l' ->
  forall b,
    fold_left (link_step item_name item_x item_y items all_items) l b
    = fold_left (link_step item_name item_x item_y items' all_items) l' b.
Proof.
  intros Hitems H. induction H as [|c c' t t' Hc Ht IH]; intros b; simpl; [reflexivity|].
  rewrite (link_step_related _ _ _ _ _ _ b c c' Hitems Hc). apply IH.
Qed.

Lemma spatial_link_related item_name item_x item_y l l' all_items :
  Forall2 same_reading l l' ->
  spatial_link item_name item_x item_y l all_items
  = spatial_link item_name item_x item_y l' all_items.
Proof. intros H. unfold spatial_link. apply link_fold_related; exact H. Qed.

Lemma find_item_count_related item_name l l' all_items :
  Forall2 same_reading l l' ->
  _find_item_count item_name l all_items = _find_item_count item_name l' all_items.
Proof.
  intros H. unfold _find_item_count. rewrite (item_matches_related _ l l' H).
  destruct (sort_matches _) as [|m rest]; [reflexivity|].
  destruct (embedded_count _ _); [reflexivity|].
  rewrite (spatial_link_related item_name (m_x m) (m_y m) l l' all_items H). reflexivity.
Qed.

(** Of a fragment the extraction reads the text, the confidence and the
    top-left corner of the box, and nothing else: two fragment lists that
    agree on these, fragment by fragment, give the same result whatever the
    right and bottom edges of their boxes are. *)
Theorem extraction_ignores_box_extent (ocr_results ocr_results' : list OcrItem)
    (schema : FormSchemaOutput) :
  Forall2 same_reading ocr_results ocr_results' ->
  extract_field_counts ocr_results schema = extract_field_counts ocr_results' schema.
Proof.
  intros H. apply sorted_results_related in H. unfold extract_field_counts.
  generalize (empty_categories schema).
  induction (all_field_names schema) as [|f names IH] at 2 4; intros res; [reflexivity|].
  simpl. rewrite IH. f_equal. unfold store_field.
  rewrite (find_item_count_related f _ _ (all_field_names schema) H). reflexivity.
Qed.

Lemma extraction_ignores_box_extent_witness :
  extract_field_counts
    [ {| text := "Plastic bottles =8"; confidence := (92 # 100)%Q;
         box := {| x_min := 10; y_min := 10; x_max := 11; y_max := 11 |} |} ]
    (one_field "Plastic" "Plastic bottles")
  = extract_field_counts
      [ {| text := "Plastic bottles =8"; confidence := (92 # 100)%Q;
           box := {| x_min := 10; y_min := 10; x_max := 900; y_max := 40 |} |} ]
      (one_field "Plastic" "Plastic bottles").
Proof.
  apply extraction_ignores_box_extent.
  constructor; [|constructor]. repeat split.
Defined.

(** * From the digits on the card to the value of the form *)

Lemma digits_of_uint (d : Decimal.uint) (acc : Z) :
  fold_left (fun acc c => 10 * acc + digit_value c)
            (of_string (NilEmpty.string_of_uint d)) acc
  = uint_value_from d acc.
Proof.
  revert acc. induction d; intros acc; simpl; try reflexivity; rewrite IHd; f_equal;
    match goal with
    | |- context [digit_value ?c] =>
        let v := eval vm_compute in (digit_value c) in change (digit_value c) with v
    end; lia.
Qed.

Lemma uint_value_from_acc (d : Decimal.uint) (acc : positive) :
  Z.pos (Pos.of_uint_acc d acc) = uint_value_from d (Z.pos acc).
Proof.
  revert acc. induction d; intros acc; simpl; try reflexivity; rewrite IHd; f_equal; lia.
Qed.

Lemma uint_value_of_uint (d : Decimal.uint) :
  Z.of_N (Pos.of_uint d) = uint_value_from d 0.
Proof.
  induction d; simpl; try reflexivity; try exact IHd; apply uint_value_from_acc.
Qed.

(** [int] reads back what [str] writes. *)
Lemma int_of_digits_str_of_int (n : Z) :
  0 <= n -> int_of_digits (of_string (str_of_int n)) = n.
Proof.
  intros Hn. destruct n as [|p|p]; [reflexivity | | lia].
  unfold str_of_int, int_of_digits. simpl Z.to_int. cbn [NilZero.string_of_int].
  pose proof (DecimalPos.Unsigned.of_to p) as Hp.
  destruct (Pos.to_uint p) as [|d|d|d|d|d|d|d|d|d|d] eqn:E;
    [simpl in Hp; discriminate | ..];
    unfold NilZero.string_of_uint; rewrite digits_of_uint, <- uint_value_of_uint, Hp;
    reflexivity.
Qed.

(** The value the validated form shows for a located field is the count
    read off the card: the decimal string [from_ocr_field] writes for an
    entry of the result of [extract_field_counts] reads back, as the count
    extractor reads digits, to the stored value. *)
Theorem validated_value_reads_back (int_of_str : string -> option Z)
    (ocr_results : list OcrItem) (schema : FormSchemaOutput)
    (cn f : string) (m : gmap string OcrFieldResult) (r : OcrFieldResult) (v : Z) :
  extract_field_counts ocr_results schema !! cn = Some m ->
  m !! f = Some r ->
  value r = Some v ->
  int_of_digits (of_string (ktb_value (from_ocr_field_result int_of_str f r))) = v.
Proof.
  intros Hm Hf Hv. rewrite from_ocr_field_result_eq. cbn [ktb_value]. rewrite Hv. simpl.
  apply int_of_digits_str_of_int.
  destruct (extract_field_counts_entry ocr_results schema cn m f r Hm Hf) as [_ ->].
  unfold resolve in Hv.
  destruct (field_result_shape
              (_find_item_count f (sorted_results ocr_results) (all_field_names schema)))
    as [_ H2].
  rewrite (H2 v Hv). apply find_item_count_nonneg.
Qed.

Lemma validated_value_reads_back_witness :
  int_of_digits
    (of_string
       (ktb_value (from_ocr_field_result (fun _ => None) "Plastic bottles"
                     {| value := Some 8; field_confidence := Some (92 # 100)%Q |})))
  = 8.
Proof.
  apply (validated_value_reads_back (fun _ => None) label_with_count
           (one_field "Plastic" "Plastic bottles") "Plastic" "Plastic bottles"
           {[ "Plastic bottles"%string
              := {| value := Some 8; field_confidence := Some (92 # 100)%Q |} ]}
           {| value := Some 8; field_confidence := Some (92 # 100)%Q |} 8);
    vm_compute; reflexivity.
Defined.
